(** * totpdb: the encrypted TOTP record store

    A shallow embedding of the Go package [totpdb] (key derivation and
    AES-GCM wrapping in the crypto file, the [TOTPData] collection with its
    CRUD operations and secure persistence in the store file), followed by
    the properties of the specification that talk about it, and then by
    the commands of cmd/topt-cli.go that call the package, with further
    properties of both.

    Conventions.
    - A Go [string] is a [string]; a [[]byte] is a [list byte]; Go's [int]
      and [uint64] values are integers in [Z].
    - A Go slice that may be [nil] is an [option (list A)]: [None] is the
      nil slice, [Some l] a slice holding [l] (capacities are not observable
      by the code and are left out).
    - A Go [(T, error)] result whose value is the zero value on failure is a
      [result T]; [FindEntry], whose failure value is [-1], keeps the pair.
    - Packages outside the repository (crypto/aes, crypto/cipher,
      x/crypto/pbkdf2, fxamacker/cbor, os) are interfaces: a class of
      operations and, separately, a class of the laws their documentation
      gives.  The entropy source is the stream of bytes it will deliver.
    - Stateful functions pass their state explicitly: the entropy source
      for [Encrypt], the file system for the persistence functions. *)

From Stdlib Require Import ZArith Bool Ascii String Lia.
From Stdlib.Strings Require Import Byte.
From stdpp Require Import base tactics option list strings pretty gmap.

#[local] Open Scope string_scope.
#[local] Open Scope list_scope.
#[local] Open Scope Z_scope.

(* ===================================================================== *)
(** * Go values *)
(* ===================================================================== *)

Abbreviation bytes := (list byte).

(** The [error] values the package creates or passes on. *)
Inductive error : Type :=
  | ErrEntryExists                       (* errors.New, store file *)
  | ErrEntryNotFound                     (* errors.New, store file *)
  | errorString (msg : string)           (* fmt.Errorf without verbs *)
  | aes_KeySizeError (n : Z)             (* crypto/aes *)
  | cipher_errOpen                       (* crypto/cipher, GCM Open *)
  | io_EOF
  | io_ErrUnexpectedEOF
  | os_PathError (op path msg : string)  (* os *)
  | cbor_Error (msg : string)            (* fxamacker/cbor *)
  | runtime_panic (msg : string).        (* a panic that unwinds the call, not a returned value *)

(** [e.Error()]. *)
Definition Error (e : error) : string :=
  match e with
  | ErrEntryExists => "TOTP entry already exists"
  | ErrEntryNotFound => "TOTP entry not found"
  | errorString msg => msg
  | aes_KeySizeError n => "crypto/aes: invalid key size " ++ pretty n
  | cipher_errOpen => "cipher: message authentication failed"
  | io_EOF => "EOF"
  | io_ErrUnexpectedEOF => "unexpected EOF"
  | os_PathError op path msg => op ++ " " ++ path ++ ": " ++ msg
  | cbor_Error msg => "cbor: " ++ msg
  | runtime_panic msg => "panic: " ++ msg
  end.

Inductive result (A : Type) : Type :=
  | Ok (a : A)
  | Err (e : error).
Arguments Ok {A} a.
Arguments Err {A} e.

(** [v, err := f(...); if err != nil { return nil, err }; k v]. *)
Definition bind_result {A B : Type} (r : result A) (k : A -> result B) : result B :=
  match r with
  | Ok a => k a
  | Err e => Err e
  end.

Notation "'let*' x ':=' r 'in' k" := (bind_result r (fun x => k))
  (at level 10, x name, r at level 100, k at level 200).

(** The elements of a slice: what [len], [range] and [append] see. *)
Definition elems {A : Type} (s : option (list A)) : list A :=
  match s with
  | Some l => l
  | None => []
  end.

(* ===================================================================== *)
(** * The record store: data model *)
(* ===================================================================== *)

(** [otp.Key] of pquerna/otp, as the values of the accessors the package
    calls on it. *)
Module otp.
Record Key : Type := {
  Issuer : string;
  AccountName : string;
  Secret : string;
  Type_ : string;
  Period : Z;        (* uint64 *)
  Digits : Z;        (* otp.Digits, an int *)
  Algorithm : string;  (* k.Algorithm().String() *)
  URL : string
}.
End otp.

(** [TOTPEntry]. *)
Record TOTPEntry : Type := {
  Issuer : string;
  AccountName : string;
  Secret : string;
  Type_ : string;
  Period : Z;          (* uint64 *)
  Digits : Z;          (* int *)
  Algorithm : string;
  URL : string
}.

(** [TOTPData]. *)
Record TOTPData : Type := {
  Entries : option (list TOTPEntry)
}.

Definition defaultSize : Z := 10.

(** [FromOTPKey]. *)
Definition FromOTPKey (k : otp.Key) : TOTPEntry :=
  {| Issuer := otp.Issuer k;
     AccountName := otp.AccountName k;
     Secret := otp.Secret k;
     Type_ := otp.Type_ k;
     Period := otp.Period k;
     Digits := otp.Digits k;
     Algorithm := otp.Algorithm k;
     URL := otp.URL k |}.

(* ===================================================================== *)
(** * The record store: CRUD *)
(* ===================================================================== *)

(** The loop of [FindEntry], from index [ind] on. *)
Fixpoint find_from (ind : Z) (entries : list TOTPEntry) (name issuer : string)
  : Z * option error :=
  match entries with
  | [] => (-1, Some ErrEntryNotFound)
  | entry :: rest =>
      if String.eqb (AccountName entry) name then
        if String.eqb issuer EmptyString then (ind, None)
        else if String.eqb (Issuer entry) issuer then (ind, None)
        else find_from (ind + 1) rest name issuer
      else find_from (ind + 1) rest name issuer
  end.

(** [FindEntry]. *)
Definition FindEntry (data : TOTPData) (name issuer : string) : Z * option error :=
  find_from 0 (elems (Entries data)) name issuer.

(** [AddEntry]: the receiver after the call, and the error returned. *)
Definition AddEntry (data : TOTPData) (key : otp.Key) : TOTPData * option error :=
  let ent := FromOTPKey key in
  let data :=
    match Entries data with
    | None => {| Entries := Some [] |}    (* make([]TOTPEntry, 0, defaultSize) *)
    | Some _ => data
    end in
  let '(_, err) := FindEntry data (AccountName ent) (Issuer ent) in
  match err with
  | Some _ => ({| Entries := Some (elems (Entries data) ++ [ent]) |}, None)
  | None => (data, Some ErrEntryExists)
  end.

(** [GetEntry]. *)
Definition GetEntry (data : TOTPData) (name issuer : string) : result TOTPEntry :=
  let '(ind, err) := FindEntry data name issuer in
  match err with
  | Some e => Err e
  | None =>
      match elems (Entries data) !! Z.to_nat ind with
      | Some entry => Ok entry
      | None => Err (runtime_panic "index out of range")
      end
  end.

(** [RemoveEntry]: the receiver after the call, and the error returned.
    The [append] shifts the tail down inside the slice's own array; the
    package keeps no second slice over it. *)
Definition RemoveEntry (data : TOTPData) (name issuer : string) : TOTPData * option error :=
  let '(index, err) := FindEntry data name issuer in
  match err with
  | Some e => (data, Some e)
  | None =>
      let l := elems (Entries data) in
      ({| Entries := Some (take (Z.to_nat index) l ++ drop (Z.to_nat (index + 1)) l) |},
       None)
  end.

(** The composite-key rule of [FindEntry]: [entry] answers the probe
    [(name, issuer)]. *)
Definition matches (name issuer : string) (entry : TOTPEntry) : bool :=
  String.eqb (AccountName entry) name
  && (String.eqb issuer EmptyString || String.eqb (Issuer entry) issuer).

(** The same rule as a proposition. *)
Definition answers (name issuer : string) (entry : TOTPEntry) : Prop :=
  AccountName entry = name /\ (issuer = EmptyString \/ Issuer entry = issuer).

(** At most one record of the collection answers the probe. *)
Definition at_most_one_answer (data : TOTPData) (name issuer : string) : Prop :=
  forall (i j : nat) (e1 e2 : TOTPEntry),
    elems (Entries data) !! i = Some e1 ->
    elems (Entries data) !! j = Some e2 ->
    answers name issuer e1 ->
    answers name issuer e2 ->
    i = j.

(** Collections built from an empty one by [AddEntry] and [RemoveEntry]. *)
Inductive reachable : TOTPData -> Prop :=
  | reach_zero : reachable {| Entries := None |}
  | reach_empty : reachable {| Entries := Some [] |}
  | reach_add data key : reachable data -> reachable (AddEntry data key).1
  | reach_remove data name issuer :
      reachable data -> reachable (RemoveEntry data name issuer).1.

(** The composite key of a record. *)
Definition key_of (entry : TOTPEntry) : string * string :=
  (AccountName entry, Issuer entry).

(** No two records at different positions share a composite key whose
    issuer is not empty. *)
Definition unique_keys (data : TOTPData) : Prop :=
  forall (i j : nat) (e1 e2 : TOTPEntry),
    elems (Entries data) !! i = Some e1 ->
    elems (Entries data) !! j = Some e2 ->
    AccountName e1 = AccountName e2 ->
    Issuer e1 = Issuer e2 ->
    Issuer e1 <> EmptyString ->
    i = j.

(* ===================================================================== *)
(** * The crypto layer: the packages it calls *)
(* ===================================================================== *)

(** The hash constructors a caller can hand to [pbkdf2.Key]. *)
Inductive hash_New : Type :=
  | sha1_New
  | sha256_New
  | sha512_New.

(** golang.org/x/crypto/pbkdf2: what [Key(password, salt, iter, keyLen, h)]
    computes when [keyLen] is not negative, a key or the panic the call
    ends in. *)
Class PBKDF2 : Type := {
  pbkdf2_derive : bytes -> bytes -> Z -> Z -> hash_New -> result bytes
}.

(** For a positive number of iterations and a positive length the call
    returns, and the derived key has the length that was asked for.  (At
    length zero the releases of the package differ.) *)
Class PBKDF2Laws `{PBKDF2} : Prop := {
  pbkdf2_derive_length password salt iter keyLen h :
    0 < iter -> 0 < keyLen ->
    exists key,
      pbkdf2_derive password salt iter keyLen h = Ok key /\
      Z.of_nat (length key) = keyLen
}.

(** [pbkdf2.Key]: no key has a negative length, the call panics on one. *)
Definition pbkdf2_Key `{PBKDF2} (password salt : bytes) (iter keyLen : Z) (h : hash_New)
  : result bytes :=
  if keyLen <? 0
  then Err (runtime_panic "pbkdf2: negative key length")
  else pbkdf2_derive password salt iter keyLen h.

(** crypto/sha256: [Sum256]. *)
Class SHA256 : Type := {
  sha256_Sum256 : bytes -> bytes
}.

(** AES in Galois/Counter mode, as two functions of the key, the nonce, the
    text and the additional data: [gcm_seal] gives ciphertext followed by
    tag, [gcm_open] gives the plaintext when the tag verifies. *)
Class AESGCM : Type := {
  gcm_seal : bytes -> bytes -> bytes -> bytes -> bytes;
  gcm_open : bytes -> bytes -> bytes -> bytes -> option bytes
}.

(** Constants of crypto/aes and crypto/cipher. *)
Definition aes_BlockSize : Z := 16.
Definition gcmBlockSize : Z := 16.
Definition gcmStandardNonceSize : Z := 12.
Definition gcmTagSize : Z := 16.

(** What the documentation of crypto/cipher promises of GCM, for a nonce of
    the standard size. *)
Class AESGCMLaws `{AESGCM} : Prop := {
  gcm_seal_length key nonce plaintext ad :
    Z.of_nat (length nonce) = gcmStandardNonceSize ->
    Z.of_nat (length (gcm_seal key nonce plaintext ad))
    = Z.of_nat (length plaintext) + gcmTagSize;
  gcm_open_seal key nonce plaintext ad :
    Z.of_nat (length nonce) = gcmStandardNonceSize ->
    gcm_open key nonce (gcm_seal key nonce plaintext ad) ad = Some plaintext;
  gcm_open_short key nonce ciphertext ad :
    Z.of_nat (length ciphertext) < gcmTagSize ->
    gcm_open key nonce ciphertext ad = None
}.

(** [cipher.Block] as [aes.NewCipher] builds it. *)
Record Block : Type := {
  block_key : bytes;
  BlockSize : Z
}.

(** [aes.NewCipher]: the key is 16, 24 or 32 bytes long, or the call fails
    with a [KeySizeError]. *)
Definition aes_NewCipher (key : bytes) : result Block :=
  let k := Z.of_nat (length key) in
  if (k =? 16) || (k =? 24) || (k =? 32)
  then Ok {| block_key := key; BlockSize := aes_BlockSize |}
  else Err (aes_KeySizeError k).

(** The key lengths [aes.NewCipher] accepts. *)
Definition aes_key_size_ok (key : bytes) : Prop :=
  Z.of_nat (length key) = 16 \/ Z.of_nat (length key) = 24 \/ Z.of_nat (length key) = 32.

(** [cipher.AEAD] as [cipher.NewGCM] builds it. *)
Record AEAD : Type := {
  aead_key : bytes;
  NonceSize : Z;
  Overhead : Z
}.

(** [cipher.NewGCM]: refuses a block cipher whose block is not 128 bits. *)
Definition cipher_NewGCM (block : Block) : result AEAD :=
  if BlockSize block =? gcmBlockSize
  then Ok {| aead_key := block_key block;
             NonceSize := gcmStandardNonceSize;
             Overhead := gcmTagSize |}
  else Err (errorString "cipher: NewGCM requires 128-bit block cipher").

(** [aead.Seal(dst, nonce, plaintext, additionalData)] appends ciphertext
    and tag to [dst]; it panics when the nonce has not [NonceSize] bytes.
    (Its other panic, on a plaintext of more than 2^36 - 32 bytes, is left
    out.) *)
Definition Seal `{AESGCM} (g : AEAD) (dst nonce plaintext ad : bytes) : result bytes :=
  if Z.of_nat (length nonce) =? NonceSize g
  then Ok (dst ++ gcm_seal (aead_key g) nonce plaintext ad)
  else Err (runtime_panic "crypto/cipher: incorrect nonce length given to GCM").

(** [aead.Open(dst, nonce, ciphertext, additionalData)] appends the
    plaintext to [dst], or returns the one error of the package when the
    tag does not verify; it panics like [Seal] on the length of the nonce. *)
Definition Open `{AESGCM} (g : AEAD) (dst nonce ciphertext ad : bytes) : result bytes :=
  if Z.of_nat (length nonce) =? NonceSize g
  then
    match gcm_open (aead_key g) nonce ciphertext ad with
    | Some plaintext => Ok (dst ++ plaintext)
    | None => Err cipher_errOpen
    end
  else Err (runtime_panic "crypto/cipher: incorrect nonce length given to GCM").

(** [rand.Reader], a package variable holding an [io.Reader]: the bytes it
    will still deliver.  A reader that runs dry stands for a source that
    fails. *)
Abbreviation Reader := (list byte) (only parsing).

(** [io.ReadFull(r, buf)] with [len(buf) = n]: exactly [n] bytes, or an
    error. *)
Definition io_ReadFull (r : Reader) (n : Z) : result bytes * Reader :=
  if Z.of_nat (length r) <? n
  then (Err (match r with [] => io_EOF | _ :: _ => io_ErrUnexpectedEOF end), [])
  else (Ok (take (Z.to_nat n) r), drop (Z.to_nat n) r).

(* ===================================================================== *)
(** * The crypto layer: the package's functions *)
(* ===================================================================== *)

(** [DeriveKey]: the key, or the panic of [pbkdf2.Key]. *)
Definition DeriveKey `{PBKDF2} (password salt : bytes) (keyLen : Z) : result bytes :=
  pbkdf2_Key password salt 4096 keyLen sha256_New.

(** [GenerateSalt]. *)
Definition GenerateSalt `{SHA256} (input : string) : bytes :=
  sha256_Sum256 (list_byte_of_string input).

(** [Encrypt]: the result, and the entropy source after the call. *)
Definition Encrypt `{AESGCM} (src key : bytes) (rand_Reader : Reader)
  : result bytes * Reader :=
  match aes_NewCipher key with
  | Err e => (Err e, rand_Reader)
  | Ok block =>
      match cipher_NewGCM block with
      | Err e => (Err e, rand_Reader)
      | Ok aesGCM =>
          match io_ReadFull rand_Reader (NonceSize aesGCM) with
          | (Err e, rand_Reader') => (Err e, rand_Reader')
          | (Ok nonce, rand_Reader') =>
              (let* ciphertext := Seal aesGCM nonce nonce src [] in
               Ok ciphertext, rand_Reader')
          end
      end
  end.

(** [Decrypt]. *)
Definition Decrypt `{AESGCM} (src key : bytes) : result bytes :=
  let* block := aes_NewCipher key in
  let* aesGCM := cipher_NewGCM block in
  let nonceSize := NonceSize aesGCM in
  if Z.of_nat (length src) <? nonceSize
  then Err (errorString "ciphertext too short")
  else
    let nonce := take (Z.to_nat nonceSize) src in
    let ciphertext := drop (Z.to_nat nonceSize) src in
    let* plaintext := Open aesGCM [] nonce ciphertext [] in
    Ok plaintext.

(* ===================================================================== *)
(** * Persistence *)
(* ===================================================================== *)

(** unicode/utf8: [Valid].  A string is valid when it is a sequence of
    well-formed encodings: one byte below 0x80; a lead byte 0xC2..0xDF,
    0xE0..0xEF or 0xF0..0xF4 followed by one, two or three continuation
    bytes 0x80..0xBF, where the first of them is held to a narrower range
    after 0xE0, 0xED, 0xF0 and 0xF4 (no overlong form, no surrogate,
    nothing above U+10FFFF). *)
Definition continuation (b : Z) : bool := (128 <=? b) && (b <=? 191).

Fixpoint utf8_Valid (p : bytes) : bool :=
  match p with
  | [] => true
  | x0 :: p1 =>
      let b0 := Z.of_N (Byte.to_N x0) in
      if b0 <? 128 then utf8_Valid p1
      else
        match p1 with
        | [] => false
        | x1 :: p2 =>
            let b1 := Z.of_N (Byte.to_N x1) in
            if (194 <=? b0) && (b0 <=? 223)
            then continuation b1 && utf8_Valid p2
            else
              match p2 with
              | [] => false
              | x2 :: p3 =>
                  let b2 := Z.of_N (Byte.to_N x2) in
                  if (224 <=? b0) && (b0 <=? 239)
                  then ((if b0 =? 224 then 160 else 128) <=? b1)
                       && (b1 <=? (if b0 =? 237 then 159 else 191))
                       && continuation b2 && utf8_Valid p3
                  else
                    match p3 with
                    | [] => false
                    | x3 :: p4 =>
                        let b3 := Z.of_N (Byte.to_N x3) in
                        (240 <=? b0) && (b0 <=? 244)
                        && ((if b0 =? 240 then 144 else 128) <=? b1)
                        && (b1 <=? (if b0 =? 244 then 143 else 191))
                        && continuation b2 && continuation b3 && utf8_Valid p4
                    end
              end
        end
  end.

(** [utf8.ValidString]. *)
Definition utf8_ValidString (s : string) : bool :=
  utf8_Valid (list_byte_of_string s).

(** Every string of a record, and of a collection, is valid UTF-8. *)
Definition utf8_entry (entry : TOTPEntry) : bool :=
  utf8_ValidString (Issuer entry) && utf8_ValidString (AccountName entry)
  && utf8_ValidString (Secret entry) && utf8_ValidString (Type_ entry)
  && utf8_ValidString (Algorithm entry) && utf8_ValidString (URL entry).

Definition utf8_data (data : TOTPData) : bool :=
  forallb utf8_entry (elems (Entries data)).

(** fxamacker/cbor, at the one type the package encodes. *)
Class CBOR : Type := {
  cbor_Encode : TOTPData -> result bytes;
  cbor_Decode : bytes -> result TOTPData
}.

(** The codec writes a Go string as a CBOR text string without looking
    at its bytes, and refuses to read a text string that is not valid
    UTF-8.  So it reads back what it wrote for a collection whose strings
    are all valid UTF-8, and fails on what it wrote for any other. *)
Class CBORLaws `{CBOR} : Prop := {
  cbor_Decode_Encode data buf :
    utf8_data data = true ->
    cbor_Encode data = Ok buf ->
    cbor_Decode buf = Ok data;
  cbor_Decode_invalid_utf8 data buf :
    utf8_data data = false ->
    cbor_Encode data = Ok buf ->
    exists err, cbor_Decode buf = Err err
}.

(** The files: [os.ReadFile] and [os.WriteFile]. *)
Class OS : Type := {
  FS : Type;
  os_ReadFile : FS -> string -> result bytes;
  os_WriteFile : FS -> string -> bytes -> Z -> FS * option error
}.

(** A file that was written reads back as it was written. *)
Class OSLaws `{OS} : Prop := {
  os_ReadFile_WriteFile fs filename data perm fs' :
    os_WriteFile fs filename data perm = (fs', None) ->
    os_ReadFile fs' filename = Ok data
}.

(** What a call can touch outside its arguments. *)
Record World `{OS} : Type := {
  files : FS;
  rand_Reader : Reader
}.

(** [ReadCBORSec].  A panic of [DeriveKey] ends the call. *)
Definition ReadCBORSec `{PBKDF2, AESGCM, CBOR, OS}
    (filename password : string) (salt : bytes) (fs : FS) : result TOTPData :=
  let* encryptedData := os_ReadFile fs filename in
  let* key := DeriveKey (list_byte_of_string password) salt 32 in
  let* data := Decrypt encryptedData key in
  let* totpData := cbor_Decode data in
  Ok totpData.

(** [WriteCBORSec]: the world after the call, and the error returned. *)
Definition WriteCBORSec `{PBKDF2, AESGCM, CBOR, OS}
    (filename : string) (data : TOTPData) (password : string) (salt : bytes)
    (w : World) : World * option error :=
  match cbor_Encode data with
  | Err e => (w, Some e)
  | Ok buf =>
      match DeriveKey (list_byte_of_string password) salt 32 with
      | Err e => (w, Some e)
      | Ok key =>
          match Encrypt buf key (rand_Reader w) with
          | (Err e, r') => ({| files := files w; rand_Reader := r' |}, Some e)
          | (Ok encryptedData, r') =>
              let '(fs', err) := os_WriteFile (files w) filename encryptedData 420 (* 0644 *) in
              ({| files := fs'; rand_Reader := r' |}, err)
          end
      end
  end.

(* ===================================================================== *)
(** * Reference instances of the interfaces

    Small executable stand-ins for the packages outside the repository.
    They show that the laws above can be met together and let the
    functions of the package run on concrete inputs; they are not the
    packages themselves (the cipher below is a one-byte pad with a
    checksum, not AES). *)
(* ===================================================================== *)

Module Ref.

(** ** Bytes *)

Definition xor_bits (a b : bool * (bool * (bool * (bool * (bool * (bool * (bool * bool)))))))
  : bool * (bool * (bool * (bool * (bool * (bool * (bool * bool)))))) :=
  let '(a0, (a1, (a2, (a3, (a4, (a5, (a6, a7))))))) := a in
  let '(b0, (b1, (b2, (b3, (b4, (b5, (b6, b7))))))) := b in
  (xorb a0 b0, (xorb a1 b1, (xorb a2 b2, (xorb a3 b3,
    (xorb a4 b4, (xorb a5 b5, (xorb a6 b6, xorb a7 b7))))))).

Definition xor_byte (a b : byte) : byte :=
  Byte.of_bits (xor_bits (Byte.to_bits a) (Byte.to_bits b)).

Definition byte_of_Z (z : Z) : byte :=
  default x00 (Byte.of_N (Z.to_N (z mod 256))).

Definition Z_of_byte (b : byte) : Z := Z.of_N (Byte.to_N b).

Definition bytes_eqb (a b : bytes) : bool :=
  bool_decide (map Byte.to_N a = map Byte.to_N b).

(** ** A pad-and-checksum cipher with the shape of GCM *)

(** The pad: every byte of key and nonce folded into one. *)
Definition pad (key nonce : bytes) : byte :=
  foldr xor_byte x2a (key ++ nonce).

(** The tag: sixteen copies of the checksum of pad, ciphertext and
    additional data. *)
Definition tag (key nonce ciphertext ad : bytes) : bytes :=
  replicate 16 (foldr xor_byte (pad key nonce) (ciphertext ++ ad)).

Definition seal (key nonce plaintext ad : bytes) : bytes :=
  let ciphertext := map (xor_byte (pad key nonce)) plaintext in
  ciphertext ++ tag key nonce ciphertext ad.

Definition open (key nonce sealed ad : bytes) : option bytes :=
  if (length sealed <? 16)%nat then None
  else
    let n := (length sealed - 16)%nat in
    let ciphertext := take n sealed in
    if bytes_eqb (drop n sealed) (tag key nonce ciphertext ad)
    then Some (map (xor_byte (pad key nonce)) ciphertext)
    else None.

#[export] Instance aesgcm : AESGCM := {| gcm_seal := seal; gcm_open := open |}.

(** ** A key derivation of the right length *)

Definition stretch (password salt : bytes) (iter keyLen : Z) (h : hash_New) : bytes :=
  let seed := foldr xor_byte (byte_of_Z iter) (password ++ salt) in
  map (fun i => xor_byte seed (byte_of_Z (Z.of_nat i))) (seq 0 (Z.to_nat keyLen)).

(** As the package does today, it refuses a length that is not positive. *)
Definition derive (password salt : bytes) (iter keyLen : Z) (h : hash_New) : result bytes :=
  if keyLen <=? 0
  then Err (runtime_panic "pbkdf2: keyLength must be larger than 0")
  else Ok (stretch password salt iter keyLen h).

#[export] Instance pbkdf2 : PBKDF2 := {| pbkdf2_derive := derive |}.

(** ** Files as a finite map from paths to contents *)

Definition ReadFile (fs : gmap string bytes) (filename : string) : result bytes :=
  match fs !! filename with
  | Some content => Ok content
  | None => Err (os_PathError "open" filename "no such file or directory")
  end.

Definition WriteFile (fs : gmap string bytes) (filename : string) (data : bytes)
    (perm : Z) : gmap string bytes * option error :=
  if String.eqb filename EmptyString
  then (fs, Some (os_PathError "open" filename "no such file or directory"))
  else (<[filename := data]> fs, None).

#[export] Instance os : OS :=
  {| FS := gmap string bytes; os_ReadFile := ReadFile; os_WriteFile := WriteFile |}.

(** ** A CBOR codec for [TOTPData]

    The struct is a map from field names to values, in declaration
    order; [Entries] has no tag and keeps its Go name, the fields of an
    entry carry the names of their [cbor] tags.  A nil slice is [null].
    The encoder takes the values the Go types hold; the decoder checks
    each text string with [utf8.Valid]. *)

Fixpoint be_bytes (n : nat) (z : Z) : bytes :=
  match n with
  | O => []
  | S n' => byte_of_Z (z / 256 ^ Z.of_nat n') :: be_bytes n' z
  end.

Definition be_value (bs : bytes) : Z :=
  foldl (fun acc b => acc * 256 + Z_of_byte b) 0 bs.

(** The head of a data item: major type and argument. *)
Definition enc_head (major arg : Z) : bytes :=
  if arg <? 24 then [byte_of_Z (major * 32 + arg)]
  else if arg <? 256 then byte_of_Z (major * 32 + 24) :: be_bytes 1 arg
  else if arg <? 65536 then byte_of_Z (major * 32 + 25) :: be_bytes 2 arg
  else if arg <? 4294967296 then byte_of_Z (major * 32 + 26) :: be_bytes 4 arg
  else byte_of_Z (major * 32 + 27) :: be_bytes 8 arg.

Definition malformed {A : Type} : result A :=
  Err (cbor_Error "cannot unmarshal into Go value of type totpdb.TOTPData").

Definition dec_head (b : bytes) : result (Z * Z * bytes) :=
  match b with
  | [] => malformed
  | x :: rest =>
      let v := Z_of_byte x in
      let info := v mod 32 in
      if info <? 24 then Ok (v / 32, info, rest)
      else
        let n := if info =? 24 then 1%nat else if info =? 25 then 2%nat
                 else if info =? 26 then 4%nat else if info =? 27 then 8%nat
                 else 0%nat in
        if (n =? 0)%nat || (length rest <? n)%nat then malformed
        else Ok (v / 32, be_value (take n rest), drop n rest)
  end.

Definition enc_text (s : string) : bytes :=
  enc_head 3 (Z.of_nat (String.length s)) ++ list_byte_of_string s.

Definition dec_text (b : bytes) : result (string * bytes) :=
  let* h := dec_head b in
  let '(major, n, rest) := h in
  if (major =? 3) && (n <=? Z.of_nat (length rest))
  then
    let text := take (Z.to_nat n) rest in
    if utf8_Valid text
    then Ok (string_of_list_byte text, drop (Z.to_nat n) rest)
    else Err (cbor_Error "invalid UTF-8 string")
  else malformed.

Definition enc_int (z : Z) : bytes :=
  if 0 <=? z then enc_head 0 z else enc_head 1 (-1 - z).

Definition dec_int (b : bytes) : result (Z * bytes) :=
  let* h := dec_head b in
  let '(major, n, rest) := h in
  if major =? 0 then Ok (n, rest)
  else if major =? 1 then Ok (-1 - n, rest)
  else malformed.

Definition dec_name (name : string) (b : bytes) : result bytes :=
  let* t := dec_text b in
  if String.eqb t.1 name then Ok t.2 else malformed.

Definition enc_entry (e : TOTPEntry) : bytes :=
  enc_head 5 8
  ++ enc_text "issuer" ++ enc_text (Issuer e)
  ++ enc_text "account_name" ++ enc_text (AccountName e)
  ++ enc_text "secret" ++ enc_text (Secret e)
  ++ enc_text "type" ++ enc_text (Type_ e)
  ++ enc_text "period" ++ enc_int (Period e)
  ++ enc_text "digits" ++ enc_int (Digits e)
  ++ enc_text "algorithm" ++ enc_text (Algorithm e)
  ++ enc_text "url" ++ enc_text (URL e).

Definition dec_entry (b : bytes) : result (TOTPEntry * bytes) :=
  let* h := dec_head b in
  if negb ((h.1.1 =? 5) && (h.1.2 =? 8)) then malformed else
  let* b := dec_name "issuer" h.2 in let* issuer := dec_text b in
  let* b := dec_name "account_name" issuer.2 in let* account := dec_text b in
  let* b := dec_name "secret" account.2 in let* secret := dec_text b in
  let* b := dec_name "type" secret.2 in let* type := dec_text b in
  let* b := dec_name "period" type.2 in let* period := dec_int b in
  let* b := dec_name "digits" period.2 in let* digits := dec_int b in
  let* b := dec_name "algorithm" digits.2 in let* algorithm := dec_text b in
  let* b := dec_name "url" algorithm.2 in let* url := dec_text b in
  Ok ({| Issuer := issuer.1; AccountName := account.1; Secret := secret.1;
         Type_ := type.1; Period := period.1; Digits := digits.1;
         Algorithm := algorithm.1; URL := url.1 |}, url.2).

Fixpoint dec_entries (n : nat) (b : bytes) : result (list TOTPEntry * bytes) :=
  match n with
  | O => Ok ([], b)
  | S n' =>
      let* e := dec_entry b in
      let* l := dec_entries n' e.2 in
      Ok (e.1 :: l.1, l.2)
  end.

(** What Go's types hold: a [uint64], an [int], a length. *)
Definition fits_uint64 (z : Z) : bool := (0 <=? z) && (z <? 18446744073709551616).
Definition fits_int (z : Z) : bool :=
  (-9223372036854775808 <=? z) && (z <? 9223372036854775808).
Definition fits_len (n : nat) : bool := Z.of_nat n <? 9223372036854775808.

Definition entry_fits (e : TOTPEntry) : bool :=
  fits_len (String.length (Issuer e)) && fits_len (String.length (AccountName e))
  && fits_len (String.length (Secret e)) && fits_len (String.length (Type_ e))
  && fits_uint64 (Period e) && fits_int (Digits e)
  && fits_len (String.length (Algorithm e)) && fits_len (String.length (URL e)).

Definition data_fits (data : TOTPData) : bool :=
  fits_len (length (elems (Entries data))) && forallb entry_fits (elems (Entries data)).

Definition Encode (data : TOTPData) : result bytes :=
  if data_fits data
  then Ok (enc_head 5 1 ++ enc_text "Entries"
           ++ match Entries data with
              | None => [xf6]
              | Some l => enc_head 4 (Z.of_nat (length l)) ++ concat (map enc_entry l)
              end)
  else Err (cbor_Error "unsupported value").

Definition dec_data (b : bytes) : result TOTPData :=
  let* h := dec_head b in
  if negb ((h.1.1 =? 5) && (h.1.2 =? 1)) then malformed else
  let* b := dec_name "Entries" h.2 in
  let* h := dec_head b in
  if (h.1.1 =? 7) && (h.1.2 =? 22) then Ok {| Entries := None |}
  else if h.1.1 =? 4 then
    let* l := dec_entries (Z.to_nat h.1.2) h.2 in Ok {| Entries := Some l.1 |}
  else malformed.

(** [Decoder.Decode]: the first data item of the input. *)
Definition Decode (b : bytes) : result TOTPData := dec_data b.

#[export] Instance cbor : CBOR := {| cbor_Encode := Encode; cbor_Decode := Decode |}.

End Ref.

(** ** Sample data *)

Definition alice_GitHub : otp.Key :=
  {| otp.Issuer := "GitHub"; otp.AccountName := "alice";
     otp.Secret := "JBSWY3DPEHPK3PXP"; otp.Type_ := "totp";
     otp.Period := 30; otp.Digits := 6; otp.Algorithm := "SHA1";
     otp.URL := "otpauth://totp/GitHub:alice?secret=JBSWY3DPEHPK3PXP&issuer=GitHub" |}.

Definition alice_GitLab : otp.Key :=
  {| otp.Issuer := "GitLab"; otp.AccountName := "alice";
     otp.Secret := "KRSXG5CTMVRXEZLU"; otp.Type_ := "totp";
     otp.Period := 30; otp.Digits := 8; otp.Algorithm := "SHA256";
     otp.URL := "otpauth://totp/GitLab:alice?secret=KRSXG5CTMVRXEZLU&issuer=GitLab" |}.

Definition bob_plain : otp.Key :=
  {| otp.Issuer := EmptyString; otp.AccountName := "bob";
     otp.Secret := "MFRGGZDFMZTWQ2LK"; otp.Type_ := "totp";
     otp.Period := 60; otp.Digits := 6; otp.Algorithm := "SHA1";
     otp.URL := "otpauth://totp/bob?secret=MFRGGZDFMZTWQ2LK" |}.

Definition bob_GitHub : otp.Key :=
  {| otp.Issuer := "GitHub"; otp.AccountName := "bob";
     otp.Secret := "ONSWG4TFORZWKY3S"; otp.Type_ := "totp";
     otp.Period := 30; otp.Digits := 6; otp.Algorithm := "SHA1";
     otp.URL := "otpauth://totp/GitHub:bob?secret=ONSWG4TFORZWKY3S&issuer=GitHub" |}.


Definition no_entries : TOTPData := {| Entries := Some [] |}.

Definition two_alices : TOTPData :=
  (AddEntry (AddEntry no_entries alice_GitHub).1 alice_GitLab).1.

Definition two_bobs : TOTPData :=
  (AddEntry (AddEntry no_entries bob_plain).1 bob_GitHub).1.


Definition key32 : bytes := replicate 32 x00.

Definition sample_world : @World Ref.os :=
  @Build_World Ref.os (∅ : gmap string bytes) (replicate 12 x07).

(* ===================================================================== *)
(** * Further notions used by the properties below *)
(* ===================================================================== *)

(** A record with an empty issuer has no record of its account before it. *)
Definition plain_first (data : TOTPData) : Prop :=
  forall (j k : nat) (e1 e2 : TOTPEntry),
    elems (Entries data) !! j = Some e1 ->
    elems (Entries data) !! k = Some e2 ->
    AccountName e1 = AccountName e2 ->
    Issuer e2 = EmptyString ->
    (k <= j)%nat.

(** ** The table of [PrintTable]

    olekukonko/tablewriter, as the calls the package makes on it: a table
    is the header and the rows it was given; what [Render] writes for a
    table is left to the library. *)
Record Table : Type := {
  table_header : list string;
  table_rows : list (list string)
}.

Definition tablewriter_NewWriter : Table :=
  {| table_header := []; table_rows := [] |}.

Definition SetHeader (table : Table) (keys : list string) : Table :=
  {| table_header := keys; table_rows := table_rows table |}.

Definition Append (table : Table) (row : list string) : Table :=
  {| table_header := table_header table; table_rows := table_rows table ++ [row] |}.

Class TableWriter : Type := {
  table_Render : Table -> string
}.

(** [fmt.Sprintf("%d", n)]. *)
Definition Sprintf_d (n : Z) : string := pretty n.

(** The table [PrintTable] has built when it calls [Render]. *)
Definition PrintTable_table (data : TOTPData) : Table :=
  let table := tablewriter_NewWriter in
  let table :=
    SetHeader table ["Issuer"; "Account Name"; "Type"; "Period"; "Digits"; "Algorithm"] in
  foldl (fun table ent =>
           Append table [Issuer ent; AccountName ent; Type_ ent;
                         Sprintf_d (Period ent); Sprintf_d (Digits ent);
                         Algorithm ent])
        table (elems (Entries data)).

(** [PrintTable]: standard output after the call. *)
Definition PrintTable `{TableWriter} (data : TOTPData) (stdout : list string)
  : list string :=
  stdout ++ [table_Render (PrintTable_table data)].

(** A plain renderer for running [PrintTable]: cells separated by bars,
    one line for the header and one for each row. *)
Definition plain_Render (table : Table) : string :=
  String.concat (String "010"%char EmptyString)
    (map (String.concat " | ") (table_header table :: table_rows table)).

Definition plain_tablewriter : TableWriter := {| table_Render := plain_Render |}.

(** The second sample record with another secret and another URL. *)
Definition alice_GitLab_rekeyed : TOTPEntry :=
  {| Issuer := "GitLab"; AccountName := "alice";
     Secret := "GEZDGNBVGY3TQOJQ"; Type_ := "totp";
     Period := 30; Digits := 8; Algorithm := "SHA256";
     URL := "otpauth://totp/GitLab:alice?secret=GEZDGNBVGY3TQOJQ&issuer=GitLab" |}.

(* ===================================================================== *)
(** * The command line: what it calls *)
(* ===================================================================== *)

(** A [cobra.Command] as the answers of its flag set: the value of the
    string and boolean flags, and whether a flag was given. *)
Record Command : Type := {
  Flags_GetString : string -> string;
  Flags_GetBool : string -> bool;
  Flag_Changed : string -> bool
}.

(** The collaborators of the commands: viper's configuration, the parts of
    os and path/filepath the commands use, the terminal, the clipboard and
    the otp library.  [os_UserHomeDir], [term_ReadPassword] and [time_Now]
    are what the environment, the user at the prompt and the clock give
    during the run. *)
Class Host `{OS} : Type := {
  Viper : Type;
  viper_AutomaticEnv : Viper -> Viper;
  viper_SetEnvPrefix : Viper -> string -> Viper;
  viper_BindEnv : Viper -> string -> Viper;
  viper_GetString : Viper -> string -> string;
  os_UserHomeDir : result string;
  os_MkdirAll : FS -> string -> Z -> FS * option error;
  os_Stat : FS -> string -> option error;
  filepath_Join : string -> string -> string;
  filepath_Dir : string -> string;
  term_ReadPassword : result bytes;
  Clipboard : Type;
  clipboard_ReadAll : Clipboard -> result string;
  clipboard_WriteAll : Clipboard -> string -> Clipboard * option error;
  Time : Type;
  time_Now : Time;
  otp_NewKeyFromURL : string -> result otp.Key;
  totp_GenerateCode : string -> Time -> result string
}.

(** What a command can touch: the files and the entropy source, standard
    output (one string for each print), viper's configuration and the
    clipboard. *)
Record Process `{Host} : Type := {
  proc_world : World;
  proc_stdout : list string;
  proc_viper : Viper;
  proc_clipboard : Clipboard
}.

(** How a call ends: it returns, the process exits, or it panics. *)
Inductive outcome (A : Type) : Type :=
  | Returned (a : A)
  | Exited (code : Z)
  | Panicked (msg : string).
Arguments Returned {A} a.
Arguments Exited {A} code.
Arguments Panicked {A} msg.

(** The errors the commands make: [fmt.Errorf] with a [%w] at the end of
    the format, as the text before it and the error it wraps, and
    [fmt.Errorf] without. *)
Inductive cli_error : Type :=
  | wrapError (prefix : string) (err : error)
  | errorf (msg : string).

Definition newline : string := String "010"%char EmptyString.

Definition FLAG_SALT : string := "salt".
Definition FLAG_ACCOUNT : string := "account".
Definition FLAG_ISSUER : string := "issuer".
Definition FLAG_URL : string := "url".
Definition FLAG_DB : string := "db".
Definition FLAG_CLIP : string := "clipboard".
Definition FLAG_QUIET : string := "quiet".
Definition PWD_PROMT : string := "Enter password: ".

(** [fmt.Print] and friends: one more string on standard output. *)
Definition print `{Host} (text : string) (p : Process) : Process :=
  {| proc_world := proc_world p;
     proc_stdout := proc_stdout p ++ [text];
     proc_viper := proc_viper p;
     proc_clipboard := proc_clipboard p |}.

Definition with_world `{Host} (w : World) (p : Process) : Process :=
  {| proc_world := w;
     proc_stdout := proc_stdout p;
     proc_viper := proc_viper p;
     proc_clipboard := proc_clipboard p |}.

Definition with_viper `{Host} (v : Viper) (p : Process) : Process :=
  {| proc_world := proc_world p;
     proc_stdout := proc_stdout p;
     proc_viper := v;
     proc_clipboard := proc_clipboard p |}.

Definition with_clipboard `{Host} (c : Clipboard) (p : Process) : Process :=
  {| proc_world := proc_world p;
     proc_stdout := proc_stdout p;
     proc_viper := proc_viper p;
     proc_clipboard := c |}.

(* ===================================================================== *)
(** * The command line: helpers *)
(* ===================================================================== *)

(** [conditionalPrintf], with the text already formatted. *)
Definition conditionalPrintf `{Host} (quiet : bool) (text : string) (p : Process)
  : Process :=
  if negb quiet then print text p else p.

(** [GetSalt]. *)
Definition GetSalt `{Host} (cmd : Command) (v : Viper) : bytes :=
  let defaultSalt := "/* Copyright (c) 2024, Books Worm Limited. */" in
  let salt := Flags_GetString cmd FLAG_SALT in
  let salt := if String.eqb salt EmptyString then viper_GetString v FLAG_SALT else salt in
  let salt := if String.eqb salt EmptyString then defaultSalt else salt in
  list_byte_of_string salt.

(** [ReadPassword]. *)
Definition ReadPassword `{Host} (prompt : string) (p : Process)
  : (string * option error) * Process :=
  let p := print prompt p in
  match term_ReadPassword with
  | Err err => ((EmptyString, Some err), p)
  | Ok bytePassword =>
      let p := print newline p in
      ((string_of_list_byte bytePassword, None), p)
  end.

(** [getPwdSalt]. *)
Definition getPwdSalt `{Host} (cmd : Command) (p : Process)
  : (string * bytes * option cli_error) * Process :=
  let '((pwd, err), p) := ReadPassword PWD_PROMT p in
  match err with
  | Some err => ((EmptyString, [], Some (wrapError "error reading password: " err)), p)
  | None => ((pwd, GetSalt cmd (proc_viper p), None), p)
  end.

(** [getQuiet]. *)
Definition getQuiet (cmd : Command) : bool := Flags_GetBool cmd FLAG_QUIET.

(** [getDBFilePath]. *)
Definition getDBFilePath `{Host} (cmd : Command) (p : Process)
  : outcome string * Process :=
  let defaultPath := "~/.config/totp-cli/entries.db" in
  let v := viper_AutomaticEnv (proc_viper p) in
  let v := viper_SetEnvPrefix v "TOTP" in
  let v := viper_BindEnv v "DB_PATH" in
  let p := with_viper v p in
  let quiet := getQuiet cmd in
  let dbPath :=
    if Flag_Changed cmd FLAG_DB then Flags_GetString cmd FLAG_DB
    else
      let dbPath := viper_GetString v "DB_PATH" in
      if String.eqb dbPath EmptyString then defaultPath else dbPath in
  if (String.length dbPath <? 2)%nat
  then (Panicked ("runtime error: slice bounds out of range [:2] with length "
                  ++ pretty (String.length dbPath)), p)
  else
    let expanded :=
      if String.eqb (substring 0 2 dbPath) "~/"
      then
        match os_UserHomeDir with
        | Err err => Err err
        | Ok homeDir =>
            Ok (filepath_Join homeDir (substring 2 (String.length dbPath - 2) dbPath))
        end
      else Ok dbPath in
    match expanded with
    | Err err =>
        (Exited 1,
         print ("Error getting user home directory: " ++ Error err ++ newline) p)
    | Ok dbPath =>
        let dir := filepath_Dir dbPath in
        let '(fs, err) := os_MkdirAll (files (proc_world p)) dir 493 (* 0755 *) in
        let p := with_world {| files := fs; rand_Reader := rand_Reader (proc_world p) |} p in
        match err with
        | Some err =>
            (Exited 1,
             print ("Error creating directory structure: " ++ Error err ++ newline) p)
        | None =>
            let p := conditionalPrintf quiet
                       ("Using database file: " ++ dbPath ++ newline) p in
            (Returned dbPath, p)
        end
    end.

(* ===================================================================== *)
(** * The command line: the commands *)
(* ===================================================================== *)

(** A call that may exit or panic, followed by the rest of the function. *)
Definition and_then `{Host} {A B : Type} (r : outcome A * Process)
    (k : A -> Process -> outcome B * Process) : outcome B * Process :=
  match r with
  | (Returned a, p) => k a p
  | (Exited code, p) => (Exited code, p)
  | (Panicked msg, p) => (Panicked msg, p)
  end.

(** [RunE] of [cmdCreateDb]. *)
Definition cmdCreateDb_RunE `{PBKDF2, AESGCM, CBOR, Host} (cmd : Command) (p : Process)
  : outcome (option cli_error) * Process :=
  and_then (getDBFilePath cmd p) (fun dbPath p =>
  let data := {| Entries := Some [] |} in
  match os_Stat (files (proc_world p)) dbPath with
  | None => (Returned (Some (errorf ("database file already exists: " ++ dbPath))), p)
  | Some _ =>
      let '((pwd, salt, err), p) := getPwdSalt cmd p in
      match err with
      | Some err => (Returned (Some err), p)
      | None =>
          let '(w, err) := WriteCBORSec dbPath data pwd salt (proc_world p) in
          let p := with_world w p in
          match err with
          | Some err => (Returned (Some (wrapError "error creating database: " err)), p)
          | None =>
              let quiet := getQuiet cmd in
              let p := conditionalPrintf quiet
                         ("Created new TOTP database at " ++ dbPath ++ newline) p in
              (Returned None, p)
          end
      end
  end).

(** [RunE] of [cmdAddUrl]. *)
Definition cmdAddUrl_RunE `{PBKDF2, AESGCM, CBOR, Host} (cmd : Command) (p : Process)
  : outcome (option cli_error) * Process :=
  let url := Flags_GetString cmd FLAG_URL in
  let clipboardInput := Flags_GetBool cmd FLAG_CLIP in
  let fromClipboard :=
    if String.eqb url EmptyString && negb clipboardInput
    then clipboard_ReadAll (proc_clipboard p)
    else Ok url in
  match fromClipboard with
  | Err err => (Returned (Some (wrapError "error reading from clipboard: " err)), p)
  | Ok url =>
  match otp_NewKeyFromURL url with
  | Err err => (Returned (Some (wrapError "error parsing TOPT URL: " err)), p)
  | Ok key =>
  and_then (getDBFilePath cmd p) (fun dbFilePath p =>
  let '((pwd, salt, err), p) := getPwdSalt cmd p in
  match err with
  | Some err => (Returned (Some err), p)
  | None =>
  match ReadCBORSec dbFilePath pwd salt (files (proc_world p)) with
  | Err err => (Returned (Some (wrapError "error reading TOTP data: " err)), p)
  | Ok data =>
  let '(data, err) := AddEntry data key in
  match err with
  | Some err =>
      (Returned (Some (wrapError ("error adding for " ++ otp.AccountName key
                                  ++ " from " ++ otp.Issuer key ++ ": ") err)), p)
  | None =>
  let '(w, err) := WriteCBORSec dbFilePath data pwd salt (proc_world p) in
  let p := with_world w p in
  match err with
  | Some err => (Returned (Some (wrapError "error writing TOTP data: " err)), p)
  | None =>
  let quiet := getQuiet cmd in
  let p := conditionalPrintf quiet
             ("Added TOTP for " ++ otp.AccountName key ++ " from " ++ otp.Issuer key
              ++ newline) p in
  match totp_GenerateCode (otp.Secret key) time_Now with
  | Err err => (Returned (Some (wrapError "error generating TOTP code: " err)), p)
  | Ok code =>
  let p := conditionalPrintf quiet "Generated TOTP code: " p in
  let p := print (code ++ newline) p in
  (Returned None, p)
  end end end end end) end end.

(** [RunE] of [cmdList]. *)
Definition cmdList_RunE `{PBKDF2, AESGCM, CBOR, Host, TableWriter}
    (cmd : Command) (p : Process) : outcome (option cli_error) * Process :=
  and_then (getDBFilePath cmd p) (fun dbPath p =>
  let '((pwd, salt, err), p) := getPwdSalt cmd p in
  match err with
  | Some err => (Returned (Some err), p)
  | None =>
      match ReadCBORSec dbPath pwd salt (files (proc_world p)) with
      | Err err => (Returned (Some (wrapError "error reading TOTP data: " err)), p)
      | Ok data =>
          let p := {| proc_world := proc_world p;
                      proc_stdout := PrintTable data (proc_stdout p);
                      proc_viper := proc_viper p;
                      proc_clipboard := proc_clipboard p |} in
          (Returned None, p)
      end
  end).

(** [RunE] of [cmdGenerate]. *)
Definition cmdGenerate_RunE `{PBKDF2, AESGCM, CBOR, Host} (cmd : Command) (p : Process)
  : outcome (option cli_error) * Process :=
  let account := Flags_GetString cmd FLAG_ACCOUNT in
  let issuer := Flags_GetString cmd FLAG_ISSUER in
  let publish := Flags_GetBool cmd FLAG_CLIP in
  and_then (getDBFilePath cmd p) (fun dbFilePath p =>
  let '((pwd, salt, err), p) := getPwdSalt cmd p in
  match err with
  | Some err => (Returned (Some err), p)
  | None =>
  match ReadCBORSec dbFilePath pwd salt (files (proc_world p)) with
  | Err err => (Returned (Some (wrapError "error reading TOTP data: " err)), p)
  | Ok data =>
  match GetEntry data account issuer with
  | Err err => (Returned (Some (wrapError "account not found: " err)), p)
  | Ok val =>
  match totp_GenerateCode (Secret val) time_Now with
  | Err err => (Returned (Some (wrapError "error generating TOTP: " err)), p)
  | Ok code =>
  let quiet := getQuiet cmd in
  let p :=
    if quiet then print (code ++ newline) p
    else conditionalPrintf quiet
           ("TOTP for " ++ AccountName val ++ " from " ++ Issuer val ++ ": "
            ++ code ++ newline) p in
  if publish then
    let '(c, err) := clipboard_WriteAll (proc_clipboard p) code in
    let p := with_clipboard c p in
    match err with
    | Some err => (Returned (Some (wrapError "error writing to clipboard: " err)), p)
    | None =>
        let p := conditionalPrintf quiet ("Copied TOTP code to clipboard" ++ newline) p in
        (Returned None, p)
    end
  else (Returned None, p)
  end end end end).

(** [RunE] of [cmdRremove]. *)
Definition cmdRremove_RunE `{PBKDF2, AESGCM, CBOR, Host} (cmd : Command) (p : Process)
  : outcome (option cli_error) * Process :=
  let account := Flags_GetString cmd FLAG_ACCOUNT in
  let issuer := Flags_GetString cmd "issuer" in
  and_then (getDBFilePath cmd p) (fun dbFilePath p =>
  let '((pwd, salt, err), p) := getPwdSalt cmd p in
  match err with
  | Some err => (Returned (Some err), p)
  | None =>
  match ReadCBORSec dbFilePath pwd salt (files (proc_world p)) with
  | Err err => (Returned (Some (wrapError "error reading TOTP data: " err)), p)
  | Ok data =>
  let '(data, err) := RemoveEntry data account issuer in
  match err with
  | Some err => (Returned (Some (wrapError "error removing TOTP: " err)), p)
  | None =>
  let '(w, err) := WriteCBORSec dbFilePath data pwd salt (proc_world p) in
  let p := with_world w p in
  match err with
  | Some err => (Returned (Some (wrapError "error writing TOTP data: " err)), p)
  | None =>
  let quiet := getQuiet cmd in
  let p := conditionalPrintf quiet
             ("Removed TOTP for " ++ account ++ " from " ++ issuer ++ newline) p in
  (Returned None, p)
  end end end end).

(** ** A host for running the commands

    Viper's configuration as a finite map that the three configuration
    calls leave alone, a home directory, directories that can always be
    made, a user who types a password, a clipboard that holds a string, a
    parser that knows the URLs of the sample keys and a code generator
    given from outside (the reference one always says 123456). *)
Fixpoint after_slash (chars : list ascii) : list ascii :=
  match chars with
  | [] => []
  | c :: rest => if Ascii.eqb c "/" then rest else after_slash rest
  end.

Definition ref_dir (path : string) : string :=
  string_of_list_ascii (reverse (after_slash (reverse (list_ascii_of_string path)))).

Definition ref_NewKeyFromURL (url : string) : result otp.Key :=
  if String.eqb url (otp.URL alice_GitHub) then Ok alice_GitHub
  else if String.eqb url (otp.URL alice_GitLab) then Ok alice_GitLab
  else if String.eqb url (otp.URL bob_plain) then Ok bob_plain
  else Err (errorString "missing scheme").

Definition make_host (generate : string -> Z -> result string) : @Host Ref.os :=
  {| Viper := gmap string string;
     viper_AutomaticEnv := fun v => v;
     viper_SetEnvPrefix := fun v _ => v;
     viper_BindEnv := fun v _ => v;
     viper_GetString := fun v key => default EmptyString (v !! key);
     os_UserHomeDir := Ok "/home/alice";
     os_MkdirAll := fun (fs : @FS Ref.os) _ _ => (fs, None);
     os_Stat := fun (fs : @FS Ref.os) name =>
                  match (fs : gmap string bytes) !! name with
                  | Some _ => None
                  | None => Some (os_PathError "stat" name "no such file or directory")
                  end;
     filepath_Join := fun a b => (a ++ "/" ++ b)%string;
     filepath_Dir := ref_dir;
     term_ReadPassword := Ok (list_byte_of_string "correct horse");
     Clipboard := string;
     clipboard_ReadAll := fun c => Ok c;
     clipboard_WriteAll := fun _ text => (text, None);
     Time := Z;
     time_Now := 1730620800;
     otp_NewKeyFromURL := ref_NewKeyFromURL;
     totp_GenerateCode := generate |}.

Definition ref_host : @Host Ref.os := make_host (fun _ _ => Ok "123456").

(** The same host with a code generator that refuses every secret. *)
Definition no_code_host : @Host Ref.os :=
  make_host (fun _ _ => Err (errorString "Decoding of secret as base32 failed.")).

(** A command line: the database path, the account and the issuer given,
    the other flags left alone. *)
Definition command_line (db account issuer url : string) : Command :=
  {| Flags_GetString := fun name =>
       if String.eqb name FLAG_DB then db
       else if String.eqb name FLAG_ACCOUNT then account
       else if String.eqb name FLAG_ISSUER then issuer
       else if String.eqb name FLAG_URL then url
       else EmptyString;
     Flags_GetBool := fun _ => false;
     Flag_Changed := fun name => String.eqb name FLAG_DB |}.

Definition sample_process : @Process Ref.os ref_host :=
  @Build_Process Ref.os ref_host sample_world [] (∅ : gmap string string) EmptyString.

(** The process after the password prompt was answered. *)
Definition prompted `{Host} (p : Process) : Process :=
  print newline (print PWD_PROMT p).

(** A database that holds the two sample records, under the password the
    reference host types and the default salt, with entropy for one more
    encryption. *)
Definition default_salt : bytes :=
  list_byte_of_string "/* Copyright (c) 2024, Books Worm Limited. */".

Definition stored_world : @World Ref.os :=
  @Build_World Ref.os
    (files (@WriteCBORSec Ref.pbkdf2 Ref.aesgcm Ref.cbor Ref.os
              "/tmp/entries.db" two_alices "correct horse" default_salt sample_world).1)
    (replicate 12 x09).

Definition stored_process : @Process Ref.os ref_host :=
  @Build_Process Ref.os ref_host stored_world [] (∅ : gmap string string) EmptyString.

Definition stored_process_no_code : @Process Ref.os no_code_host :=
  @Build_Process Ref.os no_code_host stored_world [] (∅ : gmap string string) EmptyString.

(* ===================================================================== *)
(** * The record store: lookup *)
(* ===================================================================== *)

Section Lookup.

Variables name issuer : string.

Lemma matches_answers (e : TOTPEntry) :
  matches name issuer e = true <-> answers name issuer e.
Proof.
  unfold matches, answers.
  rewrite andb_true_iff, orb_true_iff, !String.eqb_eq. tauto.
Qed.

Lemma matches_not_answers (e : TOTPEntry) :
  matches name issuer e = false <-> ~ answers name issuer e.
Proof.
  rewrite <- matches_answers. destruct (matches name issuer e); split; congruence.
Qed.

(** One turn of the loop decides [matches]. *)
Lemma find_from_cons (ind : Z) (e : TOTPEntry) (l : list TOTPEntry) :
  find_from ind (e :: l) name issuer =
  if matches name issuer e then (ind, None)
  else find_from (ind + 1) l name issuer.
Proof.
  unfold matches. simpl.
  destruct (String.eqb (AccountName e) name); simpl; [|done].
  destruct (String.eqb issuer EmptyString); simpl; [done|].
  by destruct (String.eqb (Issuer e) issuer).
Qed.

(** The loop is a search for the first record that answers the probe. *)
Lemma find_from_list_find (l : list TOTPEntry) (ind : Z) :
  find_from ind l name issuer =
  match list_find (fun e => matches name issuer e = true) l with
  | Some (k, _) => (ind + Z.of_nat k, None)
  | None => (-1, Some ErrEntryNotFound)
  end.
Proof.
  revert ind. induction l as [|e l IH]; intros ind; [done|].
  rewrite find_from_cons. cbn [list_find].
  destruct (matches name issuer e) eqn:He.
  - rewrite decide_True by done. f_equal. lia.
  - rewrite decide_False by congruence. rewrite IH.
    destruct (list_find _ l) as [[k x]|]; simpl; [|done].
    f_equal. lia.
Qed.

Lemma find_from_found (l : list TOTPEntry) (ind : Z) (k : nat) :
  find_from ind l name issuer = (ind + Z.of_nat k, None) <->
  (exists e, l !! k = Some e /\ answers name issuer e) /\
  (forall j e', l !! j = Some e' -> (j < k)%nat -> ~ answers name issuer e').
Proof.
  rewrite find_from_list_find. split.
  - destruct (list_find _ l) as [[k' x]|] eqn:Hf; [|done].
    intros [= Hk]. assert (k' = k) as -> by lia.
    apply list_find_Some in Hf as (Hx & Hm & Hfirst).
    split; [exists x; by rewrite <- matches_answers|].
    intros j e' Hj Hlt. rewrite <- matches_answers. by eapply Hfirst.
  - intros [(e & He & Ha) Hfirst].
    assert (list_find (fun e => matches name issuer e = true) l = Some (k, e)) as ->; [|done].
    apply list_find_Some. split_and!; [done|by apply matches_answers|].
    intros j y Hj Hlt. rewrite matches_answers. by eapply Hfirst.
Qed.

Lemma find_from_not_found (l : list TOTPEntry) (ind : Z) :
  find_from ind l name issuer = (-1, Some ErrEntryNotFound) <->
  (forall e, e ∈ l -> ~ answers name issuer e).
Proof.
  rewrite find_from_list_find. split.
  - destruct (list_find _ l) as [[k' x]|] eqn:Hf; [done|]. intros _.
    apply list_find_None in Hf. rewrite Forall_forall in Hf.
    intros e He. rewrite <- matches_answers. by apply Hf.
  - intros Hno.
    assert (list_find (fun e => matches name issuer e = true) l = None) as ->; [|done].
    apply list_find_None, Forall_forall. intros e He.
    rewrite matches_answers. by apply Hno.
Qed.

(** The loop ends in one of its two [return]s. *)
Lemma find_from_cases (l : list TOTPEntry) (ind : Z) :
  find_from ind l name issuer = (-1, Some ErrEntryNotFound) \/
  exists k : nat, (k < length l)%nat /\ find_from ind l name issuer = (ind + Z.of_nat k, None).
Proof.
  rewrite find_from_list_find.
  destruct (list_find _ l) as [[k x]|] eqn:Hf; [right|by left].
  exists k. split; [|done].
  apply list_find_Some in Hf as (Hx & _). by eapply lookup_lt_Some.
Qed.

End Lookup.

(* ===================================================================== *)
(** * The record store: insertion and removal *)
(* ===================================================================== *)

Lemma FindEntry_cases (data : TOTPData) (name issuer : string) :
  FindEntry data name issuer = (-1, Some ErrEntryNotFound) \/
  exists k : nat, (k < length (elems (Entries data)))%nat /\
                  FindEntry data name issuer = (Z.of_nat k, None).
Proof. apply (find_from_cases name issuer (elems (Entries data)) 0). Qed.

Lemma FindEntry_found (data : TOTPData) (name issuer : string) (k : nat) :
  FindEntry data name issuer = (Z.of_nat k, None) <->
  (exists e, elems (Entries data) !! k = Some e /\ answers name issuer e) /\
  (forall j e', elems (Entries data) !! j = Some e' -> (j < k)%nat ->
                ~ answers name issuer e').
Proof. apply (find_from_found name issuer (elems (Entries data)) 0 k). Qed.

Lemma FindEntry_not_found (data : TOTPData) (name issuer : string) :
  FindEntry data name issuer = (-1, Some ErrEntryNotFound) <->
  (forall e, e ∈ elems (Entries data) -> ~ answers name issuer e).
Proof. apply find_from_not_found. Qed.

(** [AddEntry] when a record answers the probe made of the new record's
    account name and issuer. *)
Lemma AddEntry_exists (data : TOTPData) (key : otp.Key) :
  (exists e, e ∈ elems (Entries data) /\
             answers (otp.AccountName key) (otp.Issuer key) e) ->
  AddEntry data key = (data, Some ErrEntryExists).
Proof.
  intros (e & He & Ha). destruct data as [[l|]]; simpl in He.
  - unfold AddEntry. cbn [Entries FromOTPKey AccountName Issuer].
    destruct (FindEntry_cases {| Entries := Some l |} (otp.AccountName key) (otp.Issuer key))
      as [Hno | (k & _ & Hk)].
    + exfalso. eapply FindEntry_not_found; eauto.
    + by rewrite Hk.
  - by apply elem_of_nil in He.
Qed.

(** [AddEntry] when none does. *)
Lemma AddEntry_fresh (data : TOTPData) (key : otp.Key) :
  (forall e, e ∈ elems (Entries data) ->
             ~ answers (otp.AccountName key) (otp.Issuer key) e) ->
  AddEntry data key =
  ({| Entries := Some (elems (Entries data) ++ [FromOTPKey key]) |}, None).
Proof.
  intros Hno.
  assert (FindEntry {| Entries := Some (elems (Entries data)) |}
            (otp.AccountName key) (otp.Issuer key) = (-1, Some ErrEntryNotFound)) as Hf
    by by apply FindEntry_not_found.
  destruct data as [[l|]]; unfold AddEntry;
    cbn [Entries FromOTPKey AccountName Issuer elems] in *; by rewrite Hf.
Qed.

(** The lazy allocation in [AddEntry] does not change what [FindEntry] sees. *)
Lemma AddEntry_error (data : TOTPData) (key : otp.Key) :
  (AddEntry data key).2 =
  match (FindEntry data (otp.AccountName key) (otp.Issuer key)).2 with
  | Some _ => None
  | None => Some ErrEntryExists
  end.
Proof.
  destruct data as [[l|]]; unfold AddEntry;
    cbn [Entries FromOTPKey AccountName Issuer elems].
  - by destruct (FindEntry _ _ _) as [ind [e|]].
  - done.
Qed.

(** [RemoveEntry] deletes the record at the index [FindEntry] returns. *)
Lemma RemoveEntry_found (data : TOTPData) (name issuer : string) (k : nat) :
  FindEntry data name issuer = (Z.of_nat k, None) ->
  RemoveEntry data name issuer =
  ({| Entries := Some (delete k (elems (Entries data))) |}, None).
Proof.
  intros Hk. unfold RemoveEntry. rewrite Hk. cbn zeta.
  rewrite Nat2Z.id. replace (Z.to_nat (Z.of_nat k + 1)) with (S k) by lia.
  by rewrite delete_take_drop.
Qed.

Lemma RemoveEntry_not_found (data : TOTPData) (name issuer : string) :
  FindEntry data name issuer = (-1, Some ErrEntryNotFound) ->
  RemoveEntry data name issuer = (data, Some ErrEntryNotFound).
Proof. intros Hno. unfold RemoveEntry. by rewrite Hno. Qed.

Lemma RemoveEntry_success (data data' : TOTPData) (name issuer : string) :
  RemoveEntry data name issuer = (data', None) ->
  exists k : nat,
    FindEntry data name issuer = (Z.of_nat k, None) /\
    data' = {| Entries := Some (delete k (elems (Entries data))) |}.
Proof.
  destruct (FindEntry_cases data name issuer) as [Hno | (k & _ & Hk)].
  - rewrite (RemoveEntry_not_found _ _ _ Hno). congruence.
  - rewrite (RemoveEntry_found _ _ _ _ Hk). intros [= <-]. eauto.
Qed.

(** [GetEntry] returns the record at the index [FindEntry] returns; the
    index expression never panics. *)
Lemma GetEntry_found (data : TOTPData) (name issuer : string) (k : nat) :
  FindEntry data name issuer = (Z.of_nat k, None) ->
  exists e, GetEntry data name issuer = Ok e /\
            elems (Entries data) !! k = Some e /\ answers name issuer e.
Proof.
  intros Hk. unfold GetEntry. rewrite Hk, Nat2Z.id.
  apply FindEntry_found in Hk as [(e & He & Ha) _].
  exists e. by rewrite He.
Qed.

Lemma GetEntry_not_found (data : TOTPData) (name issuer : string) :
  FindEntry data name issuer = (-1, Some ErrEntryNotFound) ->
  GetEntry data name issuer = Err ErrEntryNotFound.
Proof. intros Hno. unfold GetEntry. by rewrite Hno. Qed.

(** ** The invariant *)

(** The composite keys of a reachable collection are pairwise distinct,
    empty issuers included. *)
Lemma reachable_NoDup (data : TOTPData) :
  reachable data -> NoDup (key_of <$> elems (Entries data)).
Proof.
  induction 1 as [| |data key _ IH|data name issuer _ IH]; simpl;
    [apply NoDup_nil_2..| |].
  - destruct (FindEntry_cases data (otp.AccountName key) (otp.Issuer key))
      as [Hno | (k & Hlt & Hk)].
    + rewrite AddEntry_fresh by by apply FindEntry_not_found.
      simpl. rewrite fmap_app. apply NoDup_app. split_and!; [done| |].
      * intros x Hx Hin. apply list_elem_of_singleton in Hin as ->.
        apply list_elem_of_fmap in Hx as (e & Heq & He).
        eapply FindEntry_not_found; [exact Hno|exact He|].
        unfold key_of in Heq. simpl in Heq. injection Heq as Hn Hi.
        split; auto.
      * apply NoDup_singleton.
    + apply FindEntry_found in Hk as [(e & He & Ha) _].
      rewrite AddEntry_exists; [done|].
      exists e. split; [by eapply list_elem_of_lookup_2|done].
  - destruct (FindEntry_cases data name issuer) as [Hno | (k & Hlt & Hk)].
    + by rewrite RemoveEntry_not_found.
    + rewrite (RemoveEntry_found _ _ _ _ Hk). simpl.
      eapply sublist_NoDup; [exact IH|].
      apply fmap_sublist, sublist_delete.
Qed.

Lemma NoDup_unique_keys (data : TOTPData) :
  NoDup (key_of <$> elems (Entries data)) -> unique_keys data.
Proof.
  intros Hnd i j e1 e2 Hi Hj Ha Hs _.
  eapply NoDup_lookup; [exact Hnd| |];
    rewrite list_lookup_fmap; [rewrite Hi|rewrite Hj]; simpl; [done|].
  unfold key_of. by rewrite Ha, Hs.
Qed.

Lemma unique_keys_at_most_one (data : TOTPData) (name issuer : string) :
  unique_keys data -> issuer <> EmptyString -> at_most_one_answer data name issuer.
Proof.
  intros Hu Hne i j e1 e2 Hi Hj [Ha1 [?|Hs1]] [Ha2 [?|Hs2]]; try done.
  eapply Hu; eauto; congruence.
Qed.

(* ===================================================================== *)
(** * The record store: the properties of the specification *)
(* ===================================================================== *)

(** C8: with an empty issuer, [FindEntry] returns the index of the first
    record, in insertion order, whose account name is the one asked for,
    whatever the issuer of that record; it returns [-1] and
    [ErrEntryNotFound] exactly when no record has that account name; and
    it always returns one or the other. *)
Theorem FindEntry_empty_issuer (data : TOTPData) (a : string) :
  (forall k : nat,
     FindEntry data a EmptyString = (Z.of_nat k, None) <->
     (exists e, elems (Entries data) !! k = Some e /\ AccountName e = a) /\
     (forall j e', elems (Entries data) !! j = Some e' -> (j < k)%nat ->
                   AccountName e' <> a)) /\
  (FindEntry data a EmptyString = (-1, Some ErrEntryNotFound) <->
   (forall e, e ∈ elems (Entries data) -> AccountName e <> a)) /\
  (FindEntry data a EmptyString = (-1, Some ErrEntryNotFound) \/
   exists k : nat, FindEntry data a EmptyString = (Z.of_nat k, None)).
Proof.
  assert (Hans : forall e, answers a EmptyString e <-> AccountName e = a)
    by (unfold answers; intros e; tauto).
  split_and!.
  - intros k. rewrite FindEntry_found. setoid_rewrite Hans. done.
  - rewrite FindEntry_not_found. setoid_rewrite Hans. done.
  - destruct (FindEntry_cases data a EmptyString) as [?|(k & _ & ?)]; eauto.
Qed.

(** C4: when the collection holds a record that answers the probe made of
    the new record's account name and issuer (an empty issuer answers for
    any), [AddEntry] returns [ErrEntryExists] and the collection is what it
    was; otherwise it returns no error and the collection is the old one
    with the new record at the end. *)
Theorem AddEntry_duplicate_or_append (data : TOTPData) (key : otp.Key) :
  ((exists e, e ∈ elems (Entries data) /\
              answers (AccountName (FromOTPKey key)) (Issuer (FromOTPKey key)) e) ->
   AddEntry data key = (data, Some ErrEntryExists)) /\
  (~ (exists e, e ∈ elems (Entries data) /\
                answers (AccountName (FromOTPKey key)) (Issuer (FromOTPKey key)) e) ->
   AddEntry data key =
   ({| Entries := Some (elems (Entries data) ++ [FromOTPKey key]) |}, None)).
Proof.
  split.
  - apply AddEntry_exists.
  - intros Hno. apply AddEntry_fresh. intros e He Ha. apply Hno. eauto.
Qed.

Lemma AddEntry_duplicate_or_append_witness :
  AddEntry two_alices alice_GitHub = (two_alices, Some ErrEntryExists) /\
  AddEntry two_alices bob_plain =
  ({| Entries := Some (elems (Entries two_alices) ++ [FromOTPKey bob_plain]) |}, None).
Proof.
  split.
  - apply (proj1 (AddEntry_duplicate_or_append two_alices alice_GitHub)).
    exists (FromOTPKey alice_GitHub). split; [vm_compute; left|by split; [|right]].
  - apply (proj2 (AddEntry_duplicate_or_append two_alices bob_plain)).
    intros (e & He & Ha & _). vm_compute in He, Ha.
    apply list_elem_of_In in He. destruct He as [<-|[<-|[]]]; discriminate Ha.
Defined.

(** C5: in every collection built from an empty one by [AddEntry] and
    [RemoveEntry] no two records share an account name and a non-empty
    issuer; and [AddEntry] rejects a record exactly when [FindEntry] finds
    one for its account name and issuer, that is when some record answers
    that probe, an empty issuer in the new record answering for any record
    with its account name. *)
Theorem reachable_unique_keys (data : TOTPData) :
  reachable data ->
  unique_keys data /\
  (forall key,
     (AddEntry data key).2 = Some ErrEntryExists <->
     (FindEntry data (AccountName (FromOTPKey key)) (Issuer (FromOTPKey key))).2 = None) /\
  (forall key,
     (AddEntry data key).2 = Some ErrEntryExists <->
     exists e, e ∈ elems (Entries data) /\
               AccountName e = otp.AccountName key /\
               (otp.Issuer key = EmptyString \/ Issuer e = otp.Issuer key)).
Proof.
  intros Hr. split_and!.
  - by apply NoDup_unique_keys, reachable_NoDup.
  - intros key. rewrite AddEntry_error. simpl.
    destruct (FindEntry _ _ _).2; split; congruence.
  - intros key. rewrite AddEntry_error.
    destruct (FindEntry_cases data (otp.AccountName key) (otp.Issuer key))
      as [Hno | (k & _ & Hk)].
    + rewrite Hno. simpl. split; [done|]. intros (e & He & Ha).
      exfalso. eapply FindEntry_not_found; eauto.
    + rewrite Hk. simpl. split; [intros _|done].
      apply FindEntry_found in Hk as [(e & He & Ha) _].
      exists e. split; [by eapply list_elem_of_lookup_2|done].
Qed.

Lemma reachable_unique_keys_witness :
  unique_keys two_alices /\
  (AddEntry two_alices alice_GitLab).2 = Some ErrEntryExists.
Proof.
  assert (Hr : reachable two_alices) by (do 2 apply reach_add; apply reach_empty).
  split.
  - exact (proj1 (reachable_unique_keys two_alices Hr)).
  - reflexivity.
Defined.

(** C3, as amended: when [RemoveEntry] succeeds, [FindEntry] with the same
    account name and issuer returns [ErrEntryNotFound] on the collection
    that is left exactly when at most one record of the collection answered
    the probe; this is so for every non-empty issuer in a collection built
    from an empty one by [AddEntry] and [RemoveEntry]. *)
Theorem RemoveEntry_then_FindEntry (data data' : TOTPData) (a i : string) :
  RemoveEntry data a i = (data', None) ->
  (FindEntry data' a i = (-1, Some ErrEntryNotFound) <-> at_most_one_answer data a i) /\
  (reachable data -> i <> EmptyString ->
   FindEntry data' a i = (-1, Some ErrEntryNotFound)).
Proof.
  intros Hrm. apply RemoveEntry_success in Hrm as (k & Hk & ->).
  apply FindEntry_found in Hk as [(ek & Hek & Hak) Hfirst].
  set (l := elems (Entries data)) in *.
  assert (Hiff : FindEntry {| Entries := Some (delete k l) |} a i
                 = (-1, Some ErrEntryNotFound) <-> at_most_one_answer data a i).
  { rewrite FindEntry_not_found. simpl. split.
    - intros Hno.
      assert (Honly : forall j e, l !! j = Some e -> answers a i e -> j = k).
      { intros j e Hj Ha. destruct (decide (j = k)) as [|Hne]; [done|exfalso].
        destruct (decide (j < k)%nat) as [Hlt|Hge]; [by eapply Hfirst|].
        apply (Hno e); [|done].
        apply list_elem_of_lookup. exists (pred j).
        rewrite list_lookup_delete_ge by lia.
        by replace (S (pred j)) with j by lia. }
      intros j1 j2 e1 e2 H1 H2 Ha1 Ha2.
      rewrite (Honly _ _ H1 Ha1). by rewrite (Honly _ _ H2 Ha2).
    - intros Hone e He Ha.
      apply list_elem_of_lookup in He as [j Hj].
      rewrite list_lookup_delete in Hj.
      case_decide.
      + assert (j = k) by (eapply (Hone j k); eauto). lia.
      + assert (S j = k) by (eapply (Hone (S j) k); eauto). lia. }
  split; [done|].
  intros Hr Hne. apply Hiff.
  apply unique_keys_at_most_one; [|done].
  by apply NoDup_unique_keys, reachable_NoDup.
Qed.

Lemma RemoveEntry_then_FindEntry_witness :
  FindEntry {| Entries := Some [FromOTPKey alice_GitLab] |} "alice" "GitHub"
  = (-1, Some ErrEntryNotFound).
Proof.
  assert (Hr : reachable two_alices) by (do 2 apply reach_add; apply reach_empty).
  refine (proj2 (RemoveEntry_then_FindEntry two_alices _ "alice" "GitHub" _) Hr _).
  - reflexivity.
  - discriminate.
Defined.

(** C3 as stated fails for the empty issuer: after two records for the
    account alice were added, removing with the account name alone
    succeeds and the same probe still finds a record. *)
Lemma RemoveEntry_then_FindEntry_counterexample :
  reachable two_alices /\
  exists data',
    RemoveEntry two_alices "alice" EmptyString = (data', None) /\
    FindEntry data' "alice" EmptyString = (0, None) /\
    FindEntry data' "alice" EmptyString <> (-1, Some ErrEntryNotFound).
Proof.
  split; [do 2 apply reach_add; apply reach_empty|].
  exists {| Entries := Some [FromOTPKey alice_GitLab] |}.
  split_and!; [reflexivity|reflexivity|discriminate].
Qed.

(** The scenario of the specification: add, add again, get, remove, get. *)
Example store_scenario :
  let d0 := {| Entries := None |} in
  let '(d1, err1) := AddEntry d0 alice_GitHub in
  let '(d2, err2) := AddEntry d1 alice_GitHub in
  let '(d3, err3) := RemoveEntry d2 "alice" "GitHub" in
  err1 = None /\
  err2 = Some ErrEntryExists /\ d2 = d1 /\
  GetEntry d2 "alice" "GitHub" = Ok (FromOTPKey alice_GitHub) /\
  err3 = None /\
  GetEntry d3 "alice" "GitHub" = Err ErrEntryNotFound.
Proof. vm_compute. by split_and!. Qed.

(* ===================================================================== *)
(** * The crypto layer: cipher set-up and the entropy source *)
(* ===================================================================== *)

Lemma aes_NewCipher_ok (key : bytes) :
  aes_key_size_ok key ->
  aes_NewCipher key = Ok {| block_key := key; BlockSize := aes_BlockSize |}.
Proof.
  unfold aes_key_size_ok, aes_NewCipher. intros Hk.
  destruct (_ || _) eqn:Hb; [done|].
  apply orb_false_iff in Hb as [Hb H32]. apply orb_false_iff in Hb as [H16 H24]. lia.
Qed.

Lemma aes_NewCipher_error (key : bytes) :
  ~ aes_key_size_ok key ->
  aes_NewCipher key = Err (aes_KeySizeError (Z.of_nat (length key))).
Proof.
  unfold aes_key_size_ok, aes_NewCipher. intros Hk.
  destruct (_ || _) eqn:Hb; [|done].
  apply orb_true_iff in Hb as [Hb|H32]; [apply orb_true_iff in Hb as [H16|H24]|]; lia.
Qed.

Lemma aes_key_size_ok_dec (key : bytes) : aes_key_size_ok key \/ ~ aes_key_size_ok key.
Proof. unfold aes_key_size_ok. lia. Qed.

(** An AES block always makes a GCM. *)
Lemma cipher_NewGCM_aes (key : bytes) :
  cipher_NewGCM {| block_key := key; BlockSize := aes_BlockSize |} =
  Ok {| aead_key := key; NonceSize := gcmStandardNonceSize; Overhead := gcmTagSize |}.
Proof. reflexivity. Qed.

Lemma io_ReadFull_ok (r : Reader) (n : Z) :
  n <= Z.of_nat (length r) ->
  io_ReadFull r n = (Ok (take (Z.to_nat n) r), drop (Z.to_nat n) r).
Proof. unfold io_ReadFull. intros Hn. by rewrite (proj2 (Z.ltb_ge _ _) Hn). Qed.

Lemma io_ReadFull_error (r : Reader) (n : Z) :
  Z.of_nat (length r) < n ->
  exists e, io_ReadFull r n = (Err e, []) /\ (e = io_EOF \/ e = io_ErrUnexpectedEOF).
Proof.
  unfold io_ReadFull. intros Hn. rewrite (proj2 (Z.ltb_lt _ _) Hn).
  destruct r; eauto.
Qed.

Section Cipher.

Context `{AESGCM}.

(** [Encrypt] with a key AES accepts and enough entropy for a nonce. *)
Lemma Encrypt_ok (src key : bytes) (r : Reader) :
  aes_key_size_ok key ->
  12 <= Z.of_nat (length r) ->
  Encrypt src key r = (Ok (take 12 r ++ gcm_seal key (take 12 r) src []), drop 12 r).
Proof.
  intros Hk Hr. unfold Encrypt.
  rewrite aes_NewCipher_ok, cipher_NewGCM_aes by done.
  cbn [NonceSize]. rewrite io_ReadFull_ok by done.
  unfold Seal. cbn [NonceSize aead_key]. unfold gcmStandardNonceSize.
  rewrite length_take, (proj2 (Z.eqb_eq _ _)) by lia. done.
Qed.

Lemma Encrypt_key_error (src key : bytes) (r : Reader) :
  ~ aes_key_size_ok key ->
  Encrypt src key r = (Err (aes_KeySizeError (Z.of_nat (length key))), r).
Proof. intros Hk. unfold Encrypt. by rewrite aes_NewCipher_error. Qed.

Lemma Encrypt_entropy_error (src key : bytes) (r : Reader) :
  aes_key_size_ok key ->
  Z.of_nat (length r) < 12 ->
  exists e, Encrypt src key r = (Err e, []) /\ (e = io_EOF \/ e = io_ErrUnexpectedEOF).
Proof.
  intros Hk Hr. unfold Encrypt.
  rewrite aes_NewCipher_ok, cipher_NewGCM_aes by done. cbn [NonceSize].
  destruct (io_ReadFull_error r gcmStandardNonceSize Hr) as (e & -> & He). eauto.
Qed.

(** [Decrypt] with a key AES accepts. *)
Lemma Decrypt_short (src key : bytes) :
  aes_key_size_ok key ->
  Z.of_nat (length src) < 12 ->
  Decrypt src key = Err (errorString "ciphertext too short").
Proof.
  intros Hk Hs. unfold Decrypt.
  rewrite aes_NewCipher_ok by done. cbn [bind_result]. rewrite cipher_NewGCM_aes.
  cbn [bind_result NonceSize]. unfold gcmStandardNonceSize.
  by rewrite (proj2 (Z.ltb_lt _ _) Hs).
Qed.

Lemma Decrypt_long (src key : bytes) :
  aes_key_size_ok key ->
  12 <= Z.of_nat (length src) ->
  Decrypt src key =
  match gcm_open key (take 12 src) (drop 12 src) [] with
  | Some plaintext => Ok plaintext
  | None => Err cipher_errOpen
  end.
Proof.
  intros Hk Hs. unfold Decrypt.
  rewrite aes_NewCipher_ok by done. cbn [bind_result]. rewrite cipher_NewGCM_aes.
  cbn [bind_result NonceSize]. unfold gcmStandardNonceSize.
  rewrite (proj2 (Z.ltb_ge _ _) Hs). unfold Open. cbn [aead_key NonceSize].
  rewrite length_take, (proj2 (Z.eqb_eq _ _)) by lia.
  by destruct (gcm_open _ _ _ _).
Qed.

Lemma Decrypt_key_error (src key : bytes) :
  ~ aes_key_size_ok key ->
  Decrypt src key = Err (aes_KeySizeError (Z.of_nat (length key))).
Proof. intros Hk. unfold Decrypt. by rewrite aes_NewCipher_error. Qed.

End Cipher.

(* ===================================================================== *)
(** * The reference instances meet the laws *)
(* ===================================================================== *)

Lemma xor_byte_involutive (k x : byte) : Ref.xor_byte k (Ref.xor_byte k x) = x.
Proof.
  unfold Ref.xor_byte. rewrite Byte.to_bits_of_bits.
  rewrite <- (Byte.of_bits_to_bits x) at 2. f_equal.
  destruct (Byte.to_bits k) as (k0 & k1 & k2 & k3 & k4 & k5 & k6 & k7).
  destruct (Byte.to_bits x) as (a0 & a1 & a2 & a3 & a4 & a5 & a6 & a7).
  unfold Ref.xor_bits.
  by rewrite <- !xorb_assoc, !xorb_nilpotent, !xorb_false_l.
Qed.

Lemma bytes_eqb_refl (a : bytes) : Ref.bytes_eqb a a = true.
Proof. unfold Ref.bytes_eqb. by apply bool_decide_eq_true. Qed.

Lemma length_tag (key nonce ciphertext ad : bytes) :
  length (Ref.tag key nonce ciphertext ad) = 16%nat.
Proof. unfold Ref.tag. by rewrite length_replicate. Qed.

Lemma ref_aesgcm_laws : @AESGCMLaws Ref.aesgcm.
Proof.
  split; simpl.
  - intros key nonce plaintext ad _. unfold Ref.seal, gcmTagSize.
    rewrite length_app, length_fmap, length_tag. lia.
  - intros key nonce plaintext ad _. unfold Ref.seal, Ref.open.
    set (c := map _ plaintext).
    assert (Hlen : length (c ++ Ref.tag key nonce c ad) = (length c + 16)%nat)
      by by rewrite length_app, length_tag.
    rewrite Hlen.
    replace (length c + 16 - 16)%nat with (length c) by lia.
    rewrite (proj2 (Nat.ltb_ge _ _)) by lia.
    rewrite take_app_length, drop_app_length, bytes_eqb_refl.
    f_equal. unfold c. clear.
    induction plaintext as [|x l IH]; [done|]; simpl.
    by rewrite xor_byte_involutive, IH.
  - intros key nonce ciphertext ad Hs. unfold Ref.open, gcmTagSize in *.
    by rewrite (proj2 (Nat.ltb_lt _ _)) by lia.
Qed.

Lemma ref_pbkdf2_laws : @PBKDF2Laws Ref.pbkdf2.
Proof.
  split; simpl. intros password salt iter keyLen h _ Hk. unfold Ref.derive.
  rewrite (proj2 (Z.leb_gt _ _)) by done.
  eexists; split; [done|]. unfold Ref.stretch.
  rewrite length_fmap, length_seq. lia.
Qed.

Lemma ref_os_laws : @OSLaws Ref.os.
Proof.
  split; simpl. intros fs filename data perm fs'. unfold Ref.WriteFile, Ref.ReadFile.
  destruct (String.eqb filename EmptyString); [done|].
  intros [= <-]. by rewrite lookup_insert_eq.
Qed.

(* ===================================================================== *)
(** * The reference codec keeps the laws of the codec *)
(* ===================================================================== *)

Lemma Z_of_byte_of_Z (z : Z) : Ref.Z_of_byte (Ref.byte_of_Z z) = z mod 256.
Proof.
  unfold Ref.Z_of_byte, Ref.byte_of_Z.
  pose proof (Z.mod_pos_bound z 256 ltac:(lia)) as Hz.
  destruct (Byte.of_N (Z.to_N (z mod 256))) as [b|] eqn:Hb; simpl.
  - apply Byte.to_of_N in Hb. rewrite Hb. lia.
  - apply Byte.of_N_None_iff in Hb. lia.
Qed.

Lemma length_be_bytes (n : nat) (z : Z) : length (Ref.be_bytes n z) = n.
Proof. induction n as [|n IH]; simpl; congruence. Qed.

Lemma foldl_be_bytes (n : nat) (z acc : Z) :
  foldl (fun acc b => acc * 256 + Ref.Z_of_byte b) acc (Ref.be_bytes n z)
  = acc * 256 ^ Z.of_nat n + z mod 256 ^ Z.of_nat n.
Proof.
  revert acc. induction n as [|n IH]; intros acc.
  - simpl. rewrite Z.mod_1_r. lia.
  - cbn [Ref.be_bytes foldl]. rewrite IH, Z_of_byte_of_Z.
    rewrite Nat2Z.inj_succ, Z.pow_succ_r by lia.
    set (P := 256 ^ Z.of_nat n).
    assert (HP : 0 < P) by (apply Z.pow_pos_nonneg; lia).
    replace (256 * P) with (P * 256) by lia.
    rewrite (Z.rem_mul_r z P 256) by lia. ring.
Qed.

Lemma be_value_be_bytes (n : nat) (z : Z) :
  0 <= z < 256 ^ Z.of_nat n -> Ref.be_value (Ref.be_bytes n z) = z.
Proof.
  intros Hz. unfold Ref.be_value. rewrite foldl_be_bytes.
  rewrite Z.mod_small by done. lia.
Qed.

Lemma head_byte (major info : Z) :
  0 <= major < 8 -> 0 <= info < 32 ->
  Ref.Z_of_byte (Ref.byte_of_Z (major * 32 + info)) mod 32 = info /\
  Ref.Z_of_byte (Ref.byte_of_Z (major * 32 + info)) / 32 = major.
Proof.
  intros Hm Hi. rewrite Z_of_byte_of_Z, (Z.mod_small (_ + _)) by lia.
  rewrite (Z.add_comm (major * 32)), Z.mod_add, Z.div_add by lia.
  rewrite Z.mod_small, Z.div_small by lia. lia.
Qed.

Lemma dec_head_enc_head (major arg : Z) (rest : bytes) :
  0 <= major < 8 -> 0 <= arg < 18446744073709551616 ->
  Ref.dec_head (Ref.enc_head major arg ++ rest) = Ok (major, arg, rest).
Proof.
  intros Hm Ha. unfold Ref.enc_head.
  assert (Hlong : forall (info : Z) (n : nat),
            24 <= info < 28 ->
            n = (if info =? 24 then 1%nat else if info =? 25 then 2%nat
                 else if info =? 26 then 4%nat else 8%nat) ->
            0 <= arg < 256 ^ Z.of_nat n ->
            Ref.dec_head ((Ref.byte_of_Z (major * 32 + info) :: Ref.be_bytes n arg) ++ rest)
            = Ok (major, arg, rest)).
  { intros info n Hi Hn Hr. cbn [Ref.dec_head app]. cbv zeta.
    destruct (head_byte major info) as [-> ->]; [done|lia|].
    rewrite (proj2 (Z.ltb_ge _ _)) by lia.
    assert (Hn' : (if info =? 24 then 1%nat else if info =? 25 then 2%nat
                   else if info =? 26 then 4%nat else if info =? 27 then 8%nat
                   else 0%nat) = n).
    { subst n. repeat case_match; try done; lia. }
    rewrite Hn'.
    assert (Hn0 : (n =? 0)%nat = false).
    { apply Nat.eqb_neq. subst n. repeat case_match; lia. }
    rewrite Hn0. cbn [orb].
    rewrite (proj2 (Nat.ltb_ge _ _)) by (rewrite length_app, length_be_bytes; lia).
    rewrite take_app_length', drop_app_length' by by rewrite length_be_bytes.
    by rewrite be_value_be_bytes. }
  destruct (arg <? 24) eqn:H24.
  { apply Z.ltb_lt in H24. cbn [Ref.dec_head app]. cbv zeta.
    destruct (head_byte major arg) as [-> ->]; [done|lia|].
    by rewrite (proj2 (Z.ltb_lt _ _)) by lia. }
  apply Z.ltb_ge in H24.
  destruct (arg <? 256) eqn:H1.
  { apply Z.ltb_lt in H1. apply (Hlong 24 1%nat); [lia|done|]. simpl. lia. }
  apply Z.ltb_ge in H1.
  destruct (arg <? 65536) eqn:H2.
  { apply Z.ltb_lt in H2. apply (Hlong 25 2%nat); [lia|done|]. simpl. lia. }
  apply Z.ltb_ge in H2.
  destruct (arg <? 4294967296) eqn:H4.
  { apply Z.ltb_lt in H4. apply (Hlong 26 4%nat); [lia|done|]. simpl. lia. }
  apply Z.ltb_ge in H4.
  apply (Hlong 27 8%nat); [lia|done|]. simpl. lia.
Qed.

Lemma length_list_byte_of_string (s : string) :
  length (list_byte_of_string s) = String.length s.
Proof.
  unfold list_byte_of_string. rewrite length_map.
  induction s as [|a s IH]; simpl; congruence.
Qed.

Lemma dec_text_enc_text (s : string) (rest : bytes) :
  Ref.fits_len (String.length s) = true ->
  Ref.dec_text (Ref.enc_text s ++ rest)
  = if utf8_ValidString s then Ok (s, rest)
    else Err (cbor_Error "invalid UTF-8 string").
Proof.
  unfold Ref.fits_len. intros Hs%Z.ltb_lt.
  unfold Ref.dec_text, Ref.enc_text. rewrite <- app_assoc.
  rewrite dec_head_enc_head by lia. cbn [bind_result].
  change (3 =? 3) with true. cbn [andb].
  rewrite (proj2 (Z.leb_le _ _))
    by (rewrite length_app, length_list_byte_of_string; lia).
  cbv zeta. rewrite Nat2Z.id.
  rewrite take_app_length', drop_app_length' by by rewrite length_list_byte_of_string.
  by rewrite string_of_list_byte_of_string.
Qed.

Lemma dec_name_enc_text (name : string) (rest : bytes) :
  Ref.fits_len (String.length name) = true ->
  utf8_ValidString name = true ->
  Ref.dec_name name (Ref.enc_text name ++ rest) = Ok rest.
Proof.
  intros Hl Hu. unfold Ref.dec_name.
  rewrite dec_text_enc_text, Hu by done. cbn [bind_result fst snd].
  by rewrite String.eqb_refl.
Qed.

Lemma dec_int_enc_int (z : Z) (rest : bytes) :
  -18446744073709551616 <= z < 18446744073709551616 ->
  Ref.dec_int (Ref.enc_int z ++ rest) = Ok (z, rest).
Proof.
  intros Hz. unfold Ref.dec_int, Ref.enc_int.
  destruct (0 <=? z) eqn:H0.
  - apply Z.leb_le in H0. rewrite dec_head_enc_head by lia. done.
  - apply Z.leb_gt in H0. rewrite dec_head_enc_head by lia.
    cbn [bind_result]. change (1 =? 0) with false. change (1 =? 1) with true.
    cbv iota. do 2 f_equal. lia.
Qed.

Lemma dec_entry_enc_entry (e : TOTPEntry) (rest : bytes) :
  Ref.entry_fits e = true ->
  Ref.dec_entry (Ref.enc_entry e ++ rest)
  = if utf8_entry e then Ok (e, rest)
    else Err (cbor_Error "invalid UTF-8 string").
Proof.
  destruct e as [issuer account secret type period digits algorithm url].
  unfold Ref.entry_fits, utf8_entry. cbn [Issuer AccountName Secret Type_ Period Digits Algorithm URL].
  intros Hfits. repeat (apply andb_prop in Hfits as [Hfits ?]).
  assert (Hp : -18446744073709551616 <= period < 18446744073709551616)
    by (unfold Ref.fits_uint64 in *; lia).
  assert (Hd : -18446744073709551616 <= digits < 18446744073709551616)
    by (unfold Ref.fits_int in *; lia).
  unfold Ref.enc_entry, Ref.dec_entry.
  cbn [Issuer AccountName Secret Type_ Period Digits Algorithm URL].
  repeat rewrite <- app_assoc.
  rewrite dec_head_enc_head by lia. cbn [bind_result fst snd].
  change (negb ((5 =? 5) && (8 =? 8))) with false. cbv iota.
  repeat first
    [ rewrite dec_name_enc_text by (vm_compute; reflexivity); cbn [bind_result fst snd]
    | rewrite dec_int_enc_int by done; cbn [bind_result fst snd]
    | rewrite dec_text_enc_text by done;
      match goal with
      | |- context [utf8_ValidString ?s] =>
          destruct (utf8_ValidString s); cbn [bind_result fst snd andb]; [|done]
      end ].
  done.
Qed.

Lemma dec_entries_enc_entries (l : list TOTPEntry) (rest : bytes) :
  forallb Ref.entry_fits l = true ->
  Ref.dec_entries (length l) (concat (map Ref.enc_entry l) ++ rest)
  = if forallb utf8_entry l then Ok (l, rest)
    else Err (cbor_Error "invalid UTF-8 string").
Proof.
  induction l as [|e l IH]; [done|].
  cbn [forallb]. intros [He Hl]%andb_prop.
  cbn [length Ref.dec_entries map concat]. rewrite <- app_assoc.
  rewrite dec_entry_enc_entry by done.
  destruct (utf8_entry e); cbn [bind_result fst snd andb]; [|done].
  rewrite IH by done.
  by destruct (forallb utf8_entry l).
Qed.

(** What the decoder makes of what the encoder wrote. *)
Lemma Decode_Encode (data : TOTPData) (buf : bytes) :
  Ref.Encode data = Ok buf ->
  Ref.Decode buf
  = if utf8_data data then Ok data else Err (cbor_Error "invalid UTF-8 string").
Proof.
  unfold Ref.Encode, Ref.data_fits.
  destruct (Ref.fits_len _ && _) eqn:Hfits; [|discriminate].
  apply andb_prop in Hfits as [Hlen Hfits]. intros Hbuf.
  assert (Hb : buf = Ref.enc_head 5 1 ++ Ref.enc_text "Entries"
           ++ match Entries data with
              | None => [xf6]
              | Some l => Ref.enc_head 4 (Z.of_nat (length l)) ++ concat (map Ref.enc_entry l)
              end) by congruence.
  clear Hbuf. subst buf.
  unfold Ref.Decode, Ref.dec_data, utf8_data.
  rewrite dec_head_enc_head by lia. cbn [bind_result fst snd].
  change (negb ((5 =? 5) && (1 =? 1))) with false. cbv iota.
  rewrite dec_name_enc_text by (vm_compute; reflexivity). cbn [bind_result].
  destruct data as [[l|]]; cbn [Entries elems] in *.
  - rewrite <- (app_nil_r (concat _)).
    unfold Ref.fits_len in Hlen. apply Z.ltb_lt in Hlen.
    rewrite dec_head_enc_head by lia. cbn [bind_result fst snd].
    change ((4 =? 7) && _) with false. change (4 =? 4) with true. cbv iota.
    rewrite Nat2Z.id, dec_entries_enc_entries by done.
    by destruct (forallb utf8_entry l).
  - vm_compute. reflexivity.
Qed.

Lemma ref_cbor_laws : @CBORLaws Ref.cbor.
Proof.
  split; simpl.
  - intros data buf Hu He. by rewrite (Decode_Encode _ _ He), Hu.
  - intros data buf Hu He. rewrite (Decode_Encode _ _ He), Hu. eauto.
Qed.

(* ===================================================================== *)
(** * The crypto layer: the properties of the specification *)
(* ===================================================================== *)




(** C7, as amended: [Encrypt] fails only when AES refuses the length of the
    key (not 16, 24 or 32 bytes) or when the entropy source does not
    deliver the twelve bytes of a nonce; with a 32-byte key and an entropy
    source that delivers, it returns no error. *)
Theorem Encrypt_fails_only `{AESGCM} (src key : bytes) (r : Reader) :
  (forall e r',
     Encrypt src key r = (Err e, r') ->
     (e = aes_KeySizeError (Z.of_nat (length key)) /\ ~ aes_key_size_ok key) \/
     ((e = io_EOF \/ e = io_ErrUnexpectedEOF) /\ Z.of_nat (length r) < 12)) /\
  (Z.of_nat (length key) = 32 -> 12 <= Z.of_nat (length r) ->
   exists blob, Encrypt src key r = (Ok blob, drop 12 r)).
Proof.
  split.
  - intros e r' He.
    destruct (aes_key_size_ok_dec key) as [Hk|Hk].
    + destruct (Z_lt_ge_dec (Z.of_nat (length r)) 12) as [Hr|Hr].
      * destruct (Encrypt_entropy_error src key r Hk Hr) as (e' & He' & Hcause).
        right. rewrite He' in He. injection He as <- _. done.
      * rewrite Encrypt_ok in He by (done || lia). discriminate.
    + rewrite Encrypt_key_error in He by done. injection He as <- _. by left.
  - intros Hk Hr. eexists. apply Encrypt_ok; [by do 2 right|done].
Qed.

Lemma Encrypt_fails_only_witness :
  exists blob,
    @Encrypt Ref.aesgcm (list_byte_of_string "otp") key32 (replicate 16 x07)
    = (Ok blob, replicate 4 x07).
Proof.
  refine (proj2 (@Encrypt_fails_only Ref.aesgcm (list_byte_of_string "otp") key32
                   (replicate 16 x07)) _ _); vm_compute; [reflexivity|discriminate].
Defined.

(** C7 as stated fails: with a 32-byte key and an entropy source that
    delivers nothing, [Encrypt] returns an error. *)
Lemma Encrypt_fails_only_counterexample :
  Z.of_nat (length key32) = 32 /\
  @Encrypt Ref.aesgcm (list_byte_of_string "otp") key32 [] = (Err io_EOF, []).
Proof. split; reflexivity. Qed.

(** The error is there for every cipher. *)
Lemma Encrypt_without_entropy `{AESGCM} (src key : bytes) :
  Z.of_nat (length key) = 32 -> Encrypt src key [] = (Err io_EOF, []).
Proof.
  intros Hk. unfold Encrypt.
  rewrite aes_NewCipher_ok by by do 2 right. by rewrite cipher_NewGCM_aes.
Qed.

(** C10: with a 32-byte key and an entropy source that delivers twelve
    bytes, [Encrypt] returns those twelve bytes as the nonce followed by
    what GCM seals: ciphertext and tag, sixteen bytes longer than the
    plaintext, so the blob is 28 bytes longer than the plaintext; and
    [Decrypt] hands the first twelve bytes of its input to GCM as the nonce
    and the rest as the ciphertext. *)
Theorem Encrypt_blob_layout `{AESGCM, !AESGCMLaws} (src key : bytes) (r : Reader) :
  Z.of_nat (length key) = 32 ->
  12 <= Z.of_nat (length r) ->
  exists blob,
    Encrypt src key r = (Ok blob, drop 12 r) /\
    Z.of_nat (length blob) = Z.of_nat (length src) + 28 /\
    take 12 blob = take 12 r /\
    drop 12 blob = gcm_seal key (take 12 r) src [] /\
    Z.of_nat (length (drop 12 blob)) = Z.of_nat (length src) + 16 /\
    (forall input,
       12 <= Z.of_nat (length input) ->
       Decrypt input key =
       match gcm_open key (take 12 input) (drop 12 input) [] with
       | Some plaintext => Ok plaintext
       | None => Err cipher_errOpen
       end).
Proof.
  intros Hk Hr.
  assert (Hok : aes_key_size_ok key) by by do 2 right.
  assert (Hn : length (take 12 r) = 12%nat) by (rewrite length_take; lia).
  assert (Hs : Z.of_nat (length (gcm_seal key (take 12 r) src []))
               = Z.of_nat (length src) + 16).
  { apply gcm_seal_length. rewrite Hn. done. }
  eexists. split; [by apply Encrypt_ok|]. split_and!.
  - rewrite length_app, Hn. lia.
  - by rewrite take_app_length' by done.
  - by rewrite drop_app_length' by done.
  - by rewrite drop_app_length' by done.
  - intros input Hi. by apply Decrypt_long.
Qed.

Lemma Encrypt_blob_layout_witness :
  exists blob,
    @Encrypt Ref.aesgcm (list_byte_of_string "otp") key32 (replicate 16 x07)
    = (Ok blob, replicate 4 x07) /\
    Z.of_nat (length blob) = 3 + 28.
Proof.
  destruct (@Encrypt_blob_layout Ref.aesgcm ref_aesgcm_laws
              (list_byte_of_string "otp") key32 (replicate 16 x07))
    as (blob & He & Hl & _); [reflexivity|vm_compute; discriminate|].
  exists blob. split; [exact He|exact Hl].
Defined.

(** C2, as amended: with a 32-byte key, [Decrypt] fails exactly when the
    blob is shorter than the twelve bytes of a nonce or GCM does not open
    the rest under the nonce.  Whatever makes GCM refuse (another key, a
    changed byte), the error is the one value [cipher_errOpen]; a blob that
    is too short gets an error of its own, with its own message. *)
Theorem Decrypt_fails_exactly `{AESGCM} (src key : bytes) :
  Z.of_nat (length key) = 32 ->
  ((exists e, Decrypt src key = Err e) <->
   Z.of_nat (length src) < 12 \/
   gcm_open key (take 12 src) (drop 12 src) [] = None) /\
  (Z.of_nat (length src) < 12 ->
   Decrypt src key = Err (errorString "ciphertext too short")) /\
  (12 <= Z.of_nat (length src) ->
   gcm_open key (take 12 src) (drop 12 src) [] = None ->
   Decrypt src key = Err cipher_errOpen) /\
  Error (errorString "ciphertext too short") <> Error cipher_errOpen.
Proof.
  intros Hk. assert (Hok : aes_key_size_ok key) by by do 2 right.
  split_and!.
  - destruct (Z_lt_ge_dec (Z.of_nat (length src)) 12) as [Hs|Hs].
    + rewrite Decrypt_short by done. split; eauto.
    + rewrite Decrypt_long by (done || lia).
      destruct (gcm_open _ _ _ _); split.
      * by intros [e ?].
      * intros [?|?]; [lia|done].
      * auto.
      * eauto.
  - by apply Decrypt_short.
  - intros Hs Ho. rewrite Decrypt_long by done. by rewrite Ho.
  - discriminate.
Qed.

Lemma Decrypt_fails_exactly_witness :
  @Decrypt Ref.aesgcm (replicate 5 x00) key32 = Err (errorString "ciphertext too short").
Proof.
  refine (proj1 (proj2 (@Decrypt_fails_exactly Ref.aesgcm (replicate 5 x00) key32 _)) _);
    vm_compute; reflexivity.
Defined.

(** C2 as stated fails: under one 32-byte key an empty blob and a blob that
    holds a nonce and nothing else are both refused, with different errors
    and different messages. *)
Lemma Decrypt_fails_exactly_counterexample :
  Z.of_nat (length key32) = 32 /\
  exists e1 e2,
    @Decrypt Ref.aesgcm [] key32 = Err e1 /\
    @Decrypt Ref.aesgcm (replicate 12 x00) key32 = Err e2 /\
    e1 <> e2 /\ Error e1 <> Error e2.
Proof.
  split; [reflexivity|].
  exists (errorString "ciphertext too short"), cipher_errOpen.
  split_and!; [reflexivity|reflexivity|discriminate|discriminate].
Qed.

(** The two errors are there for every cipher that keeps the laws of GCM:
    a blob of twelve to twenty-seven bytes cannot hold a tag. *)
Lemma Decrypt_two_errors `{AESGCM, !AESGCMLaws} (key short long : bytes) :
  Z.of_nat (length key) = 32 ->
  Z.of_nat (length short) < 12 ->
  12 <= Z.of_nat (length long) < 28 ->
  Decrypt short key = Err (errorString "ciphertext too short") /\
  Decrypt long key = Err cipher_errOpen.
Proof.
  intros Hk Hs Hl. assert (Hok : aes_key_size_ok key) by by do 2 right.
  split; [by apply Decrypt_short|].
  rewrite Decrypt_long by (done || lia).
  rewrite gcm_open_short; [done|].
  rewrite length_drop. unfold gcmTagSize. lia.
Qed.

(* ===================================================================== *)
(** * Persistence: the properties of the specification *)
(* ===================================================================== *)

Section Persistence.

Context `{PBKDF2, AESGCM, CBOR, OS}.
Context `{!PBKDF2Laws, !AESGCMLaws, !OSLaws}.

(** Both functions get a key from [DeriveKey], of 32 bytes, which AES
    accepts. *)
Lemma DeriveKey_32_ok (password salt : bytes) :
  exists key,
    DeriveKey password salt 32 = Ok key /\
    Z.of_nat (length key) = 32 /\ aes_key_size_ok key.
Proof.
  unfold DeriveKey, pbkdf2_Key. change (32 <? 0) with false. cbv iota.
  destruct (pbkdf2_derive_length password salt 4096 32 sha256_New)
    as (key & -> & Hlen); [done|done|].
  exists key. split_and!; [done|done|by do 2 right].
Qed.

(** What [Encrypt] wrote, [Decrypt] reads, under the same key. *)
Lemma Decrypt_Encrypt (src key blob : bytes) (r r' : Reader) :
  aes_key_size_ok key ->
  Encrypt src key r = (Ok blob, r') ->
  Decrypt blob key = Ok src.
Proof.
  intros Hk He.
  destruct (Z_lt_ge_dec (Z.of_nat (length r)) 12) as [Hr|Hr].
  { destruct (Encrypt_entropy_error src key r Hk Hr) as (e & He' & _). congruence. }
  rewrite Encrypt_ok in He by (done || lia). injection He as <- _.
  assert (Hn : length (take 12 r) = 12%nat) by (rewrite length_take; lia).
  rewrite Decrypt_long; [|done|rewrite length_app; lia].
  rewrite take_app_length', drop_app_length' by done.
  rewrite gcm_open_seal; [done|]. by rewrite Hn.
Qed.

(** What a successful [WriteCBORSec] leaves in the file. *)
Lemma WriteCBORSec_success (filename : string) (data : TOTPData)
    (password : string) (salt : bytes) (w w' : World) :
  WriteCBORSec filename data password salt w = (w', None) ->
  exists buf key encryptedData,
    cbor_Encode data = Ok buf /\
    DeriveKey (list_byte_of_string password) salt 32 = Ok key /\
    aes_key_size_ok key /\
    Encrypt buf key (rand_Reader w) = (Ok encryptedData, rand_Reader w') /\
    os_WriteFile (files w) filename encryptedData 420 = (files w', None).
Proof.
  unfold WriteCBORSec.
  destruct (cbor_Encode data) as [buf|e]; [|discriminate].
  destruct (DeriveKey_32_ok (list_byte_of_string password) salt) as (key & -> & _ & Hk).
  destruct (Encrypt buf _ _) as [[encryptedData|e] r'] eqn:He; [|discriminate].
  destruct (os_WriteFile _ _ _ _) as [fs' err] eqn:Hw.
  intros [= <- ->]. by exists buf, key, encryptedData.
Qed.

(** After a successful [WriteCBORSec], [ReadCBORSec] gets as far as the
    decoder, and hands it what the encoder produced. *)
Lemma ReadCBORSec_WriteCBORSec (filename : string) (data : TOTPData)
    (password : string) (salt : bytes) (w w' : World) :
  WriteCBORSec filename data password salt w = (w', None) ->
  exists buf,
    cbor_Encode data = Ok buf /\
    ReadCBORSec filename password salt (files w') = cbor_Decode buf.
Proof.
  intros Hw.
  apply WriteCBORSec_success in Hw as (buf & key & enc & Hbuf & Hkey & Hk & Henc & Hfile).
  exists buf. split; [done|]. unfold ReadCBORSec.
  rewrite (os_ReadFile_WriteFile _ _ _ _ _ Hfile). cbn [bind_result].
  rewrite Hkey. cbn [bind_result].
  rewrite (Decrypt_Encrypt _ _ _ _ _ Hk Henc). cbn [bind_result].
  by destruct (cbor_Decode buf).
Qed.

End Persistence.

(** A collection with a string that is not valid UTF-8 is written like any
    other, and cannot be read again. *)
Lemma ReadCBORSec_invalid_utf8
    `{PBKDF2, AESGCM, CBOR, OS} `{!PBKDF2Laws, !AESGCMLaws, !CBORLaws, !OSLaws}
    (filename : string) (data : TOTPData) (password : string) (salt : bytes)
    (w w' : World) :
  utf8_data data = false ->
  WriteCBORSec filename data password salt w = (w', None) ->
  exists err, ReadCBORSec filename password salt (files w') = Err err.
Proof.
  intros Hu Hw.
  apply ReadCBORSec_WriteCBORSec in Hw as (buf & Hbuf & ->).
  by apply (cbor_Decode_invalid_utf8 data).
Qed.




(* ===================================================================== *)
(** * More of the record store: lookups as a search *)
(* ===================================================================== *)

(** The search both [FindEntry] and [GetEntry] run. *)
Lemma FindEntry_list_find (data : TOTPData) (name issuer : string) :
  FindEntry data name issuer =
  match list_find (fun e => matches name issuer e = true) (elems (Entries data)) with
  | Some (k, _) => (Z.of_nat k, None)
  | None => (-1, Some ErrEntryNotFound)
  end.
Proof.
  unfold FindEntry. rewrite find_from_list_find.
  by destruct (list_find _ _) as [[k x]|].
Qed.

Lemma GetEntry_list_find (data : TOTPData) (name issuer : string) :
  GetEntry data name issuer =
  match list_find (fun e => matches name issuer e = true) (elems (Entries data)) with
  | Some (_, e) => Ok e
  | None => Err ErrEntryNotFound
  end.
Proof.
  unfold GetEntry. rewrite FindEntry_list_find.
  destruct (list_find _ _) as [[k x]|] eqn:Hf; [|done].
  apply list_find_Some in Hf as (Hx & _). by rewrite Nat2Z.id, Hx.
Qed.

(** A record that does not pass the test can be taken out of a list without
    changing which record the search finds. *)
Lemma list_find_delete_other {A} (P : A -> Prop) `{forall x, Decision (P x)}
    (l : list A) (k : nat) (x : A) :
  l !! k = Some x -> ~ P x ->
  snd <$> list_find P (delete k l) = snd <$> list_find P l.
Proof.
  revert k. induction l as [|y l IH]; intros [|k] Hk Hx; simplify_eq/=.
  - rewrite decide_False by done.
    destruct (list_find P l) as [[j z]|]; done.
  - destruct (decide (P y)); [done|].
    specialize (IH k Hk Hx).
    destruct (list_find P (delete k l)) as [[j z]|],
             (list_find P l) as [[j' z']|]; simplify_eq/=; done.
Qed.

(** The search in a list with one more record at the end. *)
Lemma list_find_snoc {A} (P : A -> Prop) `{forall x, Decision (P x)}
    (l : list A) (x : A) :
  list_find P (l ++ [x]) =
  match list_find P l with
  | Some r => Some r
  | None => if decide (P x) then Some (length l, x) else None
  end.
Proof.
  induction l as [|y l IH]; simpl.
  - by destruct (decide (P x)).
  - destruct (decide (P y)); [done|]. rewrite IH.
    destruct (list_find P l) as [[j z]|]; [done|].
    by destruct (decide (P x)).
Qed.

(* ===================================================================== *)
(** * More of the record store: properties *)
(* ===================================================================== *)

(** X1: [GetEntry] returns a record exactly when it is the first record, in
    insertion order, that answers the probe; it returns
    [ErrEntryNotFound] exactly when no record answers; it returns no other
    error, so the index expression never goes out of range. *)
Theorem GetEntry_first_match (data : TOTPData) (name issuer : string) :
  (forall e,
     GetEntry data name issuer = Ok e <->
     exists k : nat,
       elems (Entries data) !! k = Some e /\ answers name issuer e /\
       (forall j e', elems (Entries data) !! j = Some e' -> (j < k)%nat ->
                     ~ answers name issuer e')) /\
  (GetEntry data name issuer = Err ErrEntryNotFound <->
   (forall e, e ∈ elems (Entries data) -> ~ answers name issuer e)) /\
  (forall err, GetEntry data name issuer = Err err -> err = ErrEntryNotFound).
Proof.
  rewrite GetEntry_list_find. split_and!.
  - intros e. split.
    + destruct (list_find _ _) as [[k x]|] eqn:Hf; [|done]. intros [= ->].
      apply list_find_Some in Hf as (Hx & Hm & Hfirst).
      exists k. split_and!; [done|by apply matches_answers|].
      intros j e' Hj Hlt. rewrite <- matches_answers. by eapply Hfirst.
    + intros (k & Hk & Ha & Hfirst).
      assert (list_find (fun e => matches name issuer e = true)
                (elems (Entries data)) = Some (k, e)) as ->; [|done].
      apply list_find_Some. split_and!; [done|by apply matches_answers|].
      intros j y Hj Hlt. rewrite matches_answers. by eapply Hfirst.
  - split.
    + destruct (list_find _ _) as [[k x]|] eqn:Hf; [done|]. intros _.
      apply list_find_None in Hf. rewrite Forall_forall in Hf.
      intros e He. rewrite <- matches_answers. by apply Hf.
    + intros Hno.
      assert (list_find (fun e => matches name issuer e = true)
                (elems (Entries data)) = None) as ->; [|done].
      apply list_find_None, Forall_forall. intros e He.
      rewrite matches_answers. by apply Hno.
  - intros err. destruct (list_find _ _) as [[k x]|]; [done|]. by intros [= <-].
Qed.

(** X2: whatever the probe, [FindEntry] returns either [-1] with
    [ErrEntryNotFound] or, with no error, an index inside the collection;
    with a non-empty issuer the record at that index has exactly that
    account name and that issuer, and it is the first such record. *)
Theorem FindEntry_index_in_range (data : TOTPData) (name issuer : string)
    (ind : Z) (err : option error) :
  FindEntry data name issuer = (ind, err) ->
  (ind = -1 /\ err = Some ErrEntryNotFound) \/
  (err = None /\ 0 <= ind < Z.of_nat (length (elems (Entries data))) /\
   exists e,
     elems (Entries data) !! Z.to_nat ind = Some e /\
     AccountName e = name /\
     (issuer <> EmptyString -> Issuer e = issuer) /\
     (forall j e', elems (Entries data) !! j = Some e' -> (j < Z.to_nat ind)%nat ->
                   issuer <> EmptyString ->
                   ~ (AccountName e' = name /\ Issuer e' = issuer))).
Proof.
  intros Hf.
  destruct (FindEntry_cases data name issuer) as [Hno | (k & Hlt & Hk)].
  - left. rewrite Hno in Hf. by injection Hf as <- <-.
  - right. rewrite Hk in Hf. injection Hf as <- <-.
    apply FindEntry_found in Hk as [(e & He & Ha & Hi) Hfirst].
    split_and!; [done|lia|lia|]. rewrite Nat2Z.id.
    exists e. split_and!; [done|done|by destruct Hi| ].
    intros j e' Hj Hjk Hne [Ha' Hi']. eapply Hfirst; eauto. split; auto.
Qed.

Lemma FindEntry_index_in_range_witness :
  exists e, elems (Entries two_alices) !! Z.to_nat 1 = Some e /\ Issuer e = "GitLab".
Proof.
  destruct (FindEntry_index_in_range two_alices "alice" "GitLab" 1 None)
    as [[Hm _]|(_ & _ & e & He & _ & Hi & _)]; [reflexivity|discriminate Hm|].
  exists e. split; [exact He|apply Hi; discriminate].
Defined.

(** [AddEntry] succeeds exactly when it appends. *)
Lemma AddEntry_success (data data' : TOTPData) (key : otp.Key) :
  AddEntry data key = (data', None) ->
  data' = {| Entries := Some (elems (Entries data) ++ [FromOTPKey key]) |} /\
  (forall e, e ∈ elems (Entries data) ->
             ~ answers (otp.AccountName key) (otp.Issuer key) e).
Proof.
  intros Hadd.
  destruct (FindEntry_cases data (otp.AccountName key) (otp.Issuer key))
    as [Hno | (k & _ & Hk)].
  - rewrite FindEntry_not_found in Hno.
    rewrite (AddEntry_fresh _ _ Hno) in Hadd. by injection Hadd as <-.
  - apply FindEntry_found in Hk as [(e & He & Ha) _].
    rewrite AddEntry_exists in Hadd; [discriminate|].
    exists e. split; [by eapply list_elem_of_lookup_2|done].
Qed.

(** X3: a record that [AddEntry] accepted is found again under its own
    account name and issuer: [FindEntry] returns the last index and
    [GetEntry] returns the record as it was added. *)
Theorem AddEntry_then_GetEntry (data data' : TOTPData) (key : otp.Key) :
  AddEntry data key = (data', None) ->
  FindEntry data' (otp.AccountName key) (otp.Issuer key)
  = (Z.of_nat (length (elems (Entries data))), None) /\
  GetEntry data' (otp.AccountName key) (otp.Issuer key) = Ok (FromOTPKey key).
Proof.
  intros Hadd. apply AddEntry_success in Hadd as [-> Hno].
  assert (Hm : matches (otp.AccountName key) (otp.Issuer key) (FromOTPKey key) = true).
  { apply matches_answers. split; [done|by right]. }
  assert (Hf : list_find (fun e => matches (otp.AccountName key) (otp.Issuer key) e = true)
                 (elems (Entries data)) = None).
  { apply list_find_None, Forall_forall. intros e He.
    rewrite matches_answers. by apply Hno. }
  rewrite FindEntry_list_find, GetEntry_list_find. simpl.
  rewrite list_find_snoc, Hf. by rewrite decide_True by done.
Qed.

Lemma AddEntry_then_GetEntry_witness :
  GetEntry two_alices "alice" "GitLab" = Ok (FromOTPKey alice_GitLab).
Proof.
  refine (proj2 (AddEntry_then_GetEntry (AddEntry no_entries alice_GitHub).1
                   two_alices alice_GitLab _)).
  reflexivity.
Defined.

(** X4: a record that [AddEntry] appends shadows nothing: every probe that
    found a record before finds the same record at the same index after;
    a probe that found none finds the new record, at the last index, when
    the new record answers it, and none otherwise. *)
Theorem AddEntry_keeps_lookups (data data' : TOTPData) (key : otp.Key)
    (name issuer : string) :
  AddEntry data key = (data', None) ->
  FindEntry data' name issuer =
  match FindEntry data name issuer with
  | (k, None) => (k, None)
  | (_, Some _) =>
      if matches name issuer (FromOTPKey key)
      then (Z.of_nat (length (elems (Entries data))), None)
      else (-1, Some ErrEntryNotFound)
  end /\
  (forall e, GetEntry data name issuer = Ok e -> GetEntry data' name issuer = Ok e).
Proof.
  intros Hadd. apply AddEntry_success in Hadd as [-> _].
  rewrite !FindEntry_list_find, !GetEntry_list_find. simpl.
  rewrite list_find_snoc.
  destruct (list_find _ (elems (Entries data))) as [[k x]|]; [done|].
  split; [|done].
  destruct (matches name issuer (FromOTPKey key)) eqn:Hm.
  - by rewrite decide_True by done.
  - by rewrite decide_False by done.
Qed.

Lemma AddEntry_keeps_lookups_witness :
  FindEntry two_alices "alice" EmptyString = (0, None).
Proof.
  refine (proj1 (AddEntry_keeps_lookups (AddEntry no_entries alice_GitHub).1
                   two_alices alice_GitLab "alice" EmptyString _)).
  reflexivity.
Defined.

(** X5: a successful [RemoveEntry] takes out one record and nothing else:
    the old collection is the new one with that record put back at the
    index [FindEntry] gave; the record answered the probe, no record before
    it did, and the records around it keep their order. *)
Theorem RemoveEntry_removes_first_match (data data' : TOTPData) (name issuer : string) :
  RemoveEntry data name issuer = (data', None) ->
  exists (k : nat) (e : TOTPEntry),
    FindEntry data name issuer = (Z.of_nat k, None) /\
    elems (Entries data)
    = take k (elems (Entries data')) ++ e :: drop k (elems (Entries data')) /\
    length (take k (elems (Entries data'))) = k /\
    answers name issuer e /\
    (forall e', e' ∈ take k (elems (Entries data')) -> ~ answers name issuer e') /\
    length (elems (Entries data)) = S (length (elems (Entries data'))).
Proof.
  intros Hrm. apply RemoveEntry_success in Hrm as (k & Hk & ->).
  pose proof Hk as Hk'.
  apply FindEntry_found in Hk' as [(e & He & Ha) Hfirst].
  set (l := elems (Entries data)) in *.
  assert (Hlt : (k < length l)%nat) by by eapply lookup_lt_Some.
  exists k, e. simpl.
  assert (Htake : take k (delete k l) = take k l).
  { rewrite delete_take_drop, take_app_le by (rewrite length_take; lia).
    rewrite take_take. f_equal. lia. }
  assert (Hdrop : drop k (delete k l) = drop (S k) l).
  { rewrite delete_take_drop, drop_app_ge by (rewrite length_take; lia).
    rewrite length_take. replace (k - k `min` length l)%nat with 0%nat by lia. done. }
  rewrite Htake, Hdrop. split_and!.
  - done.
  - by rewrite take_drop_middle.
  - rewrite length_take. lia.
  - done.
  - intros e' He'. apply list_elem_of_lookup in He' as [j Hj].
    apply lookup_take_Some in Hj as [Hj Hjk]. by eapply Hfirst.
  - rewrite length_delete by by rewrite He. lia.
Qed.

Lemma RemoveEntry_removes_first_match_witness :
  exists (k : nat) (e : TOTPEntry),
    FindEntry two_alices "alice" "GitLab" = (Z.of_nat k, None) /\ Issuer e = "GitLab".
Proof.
  destruct (RemoveEntry_removes_first_match two_alices
              {| Entries := Some [FromOTPKey alice_GitHub] |} "alice" "GitLab")
    as (k & e & Hk & _ & _ & (_ & [Hi|Hi]) & _); [reflexivity|discriminate Hi|].
  exists k, e. split; [exact Hk|exact Hi].
Defined.

(** X6: [RemoveEntry] returns an error exactly when no record answers the
    probe; the error is then [ErrEntryNotFound] and the collection is what
    it was. *)
Theorem RemoveEntry_missing (data : TOTPData) (name issuer : string) :
  ((forall e, e ∈ elems (Entries data) -> ~ answers name issuer e) <->
   exists err, (RemoveEntry data name issuer).2 = Some err) /\
  (forall data' err,
     RemoveEntry data name issuer = (data', Some err) ->
     data' = data /\ err = ErrEntryNotFound).
Proof.
  destruct (FindEntry_cases data name issuer) as [Hno | (k & _ & Hk)].
  - rewrite (RemoveEntry_not_found _ _ _ Hno). simpl. split.
    + split; [eauto|]. intros _. by apply FindEntry_not_found.
    + by intros data' err [= <- <-].
  - rewrite (RemoveEntry_found _ _ _ _ Hk). simpl. split.
    + split; [|by intros [err ?]]. intros Hno. exfalso.
      apply FindEntry_found in Hk as [(e & He & Ha) _].
      eapply Hno; [|exact Ha]. by eapply list_elem_of_lookup_2.
    + by intros data' err.
Qed.

(** X7: removing a record leaves every other lookup alone: a probe that
    the removed record does not answer gets from [GetEntry] what it got
    before. *)
Theorem RemoveEntry_keeps_other_lookups (data data' : TOTPData)
    (name issuer name' issuer' : string) (removed : TOTPEntry) :
  RemoveEntry data name issuer = (data', None) ->
  GetEntry data name issuer = Ok removed ->
  ~ answers name' issuer' removed ->
  GetEntry data' name' issuer' = GetEntry data name' issuer'.
Proof.
  intros Hrm Hget Hna. apply RemoveEntry_success in Hrm as (k & Hk & ->).
  assert (Hrem : elems (Entries data) !! k = Some removed).
  { unfold GetEntry in Hget. rewrite Hk, Nat2Z.id in Hget.
    destruct (elems (Entries data) !! k); by simplify_eq. }
  rewrite !GetEntry_list_find. simpl.
  pose proof (list_find_delete_other (fun e => matches name' issuer' e = true)
                (elems (Entries data)) k removed Hrem) as Hfind.
  rewrite matches_answers in Hfind. specialize (Hfind Hna).
  destruct (list_find _ (delete k _)) as [[j x]|],
           (list_find _ (elems (Entries data))) as [[j' x']|]; by simplify_eq/=.
Qed.

Lemma RemoveEntry_keeps_other_lookups_witness :
  GetEntry {| Entries := Some [FromOTPKey alice_GitLab] |} "alice" "GitLab"
  = GetEntry two_alices "alice" "GitLab".
Proof.
  apply (RemoveEntry_keeps_other_lookups two_alices _ "alice" "GitHub"
           "alice" "GitLab" (FromOTPKey alice_GitHub));
    [reflexivity|reflexivity|].
  intros [_ [Hi|Hi]]; discriminate Hi.
Defined.

(** X8: the order in which an account-only record and a record with an
    issuer are added matters.  In a collection with no record for the
    account, the record without issuer first and the one with an issuer
    second are both accepted; the other way round the record without
    issuer is refused, as it is whenever the account has a record. *)
Theorem AddEntry_empty_issuer_order (data : TOTPData) (plain issued : otp.Key) :
  otp.AccountName plain = otp.AccountName issued ->
  otp.Issuer plain = EmptyString ->
  otp.Issuer issued <> EmptyString ->
  (forall e, e ∈ elems (Entries data) -> AccountName e <> otp.AccountName plain) ->
  AddEntry (AddEntry data plain).1 issued
  = ({| Entries := Some (elems (Entries data) ++ [FromOTPKey plain; FromOTPKey issued]) |},
     None) /\
  AddEntry (AddEntry data issued).1 plain
  = ({| Entries := Some (elems (Entries data) ++ [FromOTPKey issued]) |},
     Some ErrEntryExists).
Proof.
  intros Hacc Hplain Hissued Hnone. split.
  - rewrite (AddEntry_fresh data plain) by (intros e He [Ha _]; by eapply Hnone).
    rewrite AddEntry_fresh; simpl.
    + by rewrite <- app_assoc.
    + intros e He [Ha [Hi|Hi]]; [done|].
      apply elem_of_app in He as [He|He].
      * eapply Hnone; [exact He|]. by rewrite Hacc.
      * apply list_elem_of_singleton in He as ->. simpl in Hi. congruence.
  - rewrite (AddEntry_fresh data issued)
      by (intros e He [Ha _]; eapply Hnone; [exact He|by rewrite Hacc]).
    apply AddEntry_exists. simpl.
    exists (FromOTPKey issued). split; [|split; [by simpl|by left]].
    apply elem_of_app. right. by apply list_elem_of_singleton.
Qed.

Lemma AddEntry_empty_issuer_order_witness :
  (AddEntry (AddEntry no_entries
               {| otp.Issuer := EmptyString; otp.AccountName := "alice";
                  otp.Secret := "MFRGGZDFMZTWQ2LK"; otp.Type_ := "totp";
                  otp.Period := 30; otp.Digits := 6; otp.Algorithm := "SHA1";
                  otp.URL := "otpauth://totp/alice?secret=MFRGGZDFMZTWQ2LK" |}).1
     alice_GitHub).2 = None.
Proof.
  refine (f_equal snd (proj1 (AddEntry_empty_issuer_order no_entries
            {| otp.Issuer := EmptyString; otp.AccountName := "alice";
               otp.Secret := "MFRGGZDFMZTWQ2LK"; otp.Type_ := "totp";
               otp.Period := 30; otp.Digits := 6; otp.Algorithm := "SHA1";
               otp.URL := "otpauth://totp/alice?secret=MFRGGZDFMZTWQ2LK" |}
            alice_GitHub _ _ _ _)));
    [reflexivity|reflexivity|discriminate|].
  intros e He. by apply elem_of_nil in He.
Defined.

Lemma reachable_plain_first (data : TOTPData) : reachable data -> plain_first data.
Proof.
  induction 1 as [| |data key _ IH|data name issuer _ IH].
  - intros j k e1 e2 Hj. by destruct j.
  - intros j k e1 e2 Hj. by destruct j.
  - destruct (AddEntry data key) as [data' [err|]] eqn:Hadd; simpl.
    + destruct (FindEntry_cases data (otp.AccountName key) (otp.Issuer key))
        as [Hno | (k & _ & Hk)].
      * rewrite FindEntry_not_found in Hno.
        rewrite (AddEntry_fresh _ _ Hno) in Hadd. discriminate.
      * apply FindEntry_found in Hk as [(e & He & Ha) _].
        rewrite AddEntry_exists in Hadd
          by (exists e; split; [by eapply list_elem_of_lookup_2|done]).
        by injection Hadd as <- _.
    + apply AddEntry_success in Hadd as [-> Hno]. simpl.
      intros j k e1 e2 Hj Hk Hacc Hplain.
      apply lookup_app_Some in Hj as [Hj|[Hjl Hj]],
            Hk as [Hk|[Hkl Hk]].
      * by eapply IH.
      * apply list_lookup_singleton_Some in Hk as [_ <-]. simpl in *.
        exfalso. eapply Hno; [by eapply list_elem_of_lookup_2|].
        split; [done|by left].
      * apply lookup_lt_Some in Hk. lia.
      * apply list_lookup_singleton_Some in Hj as [? _],
              Hk as [? _]. lia.
  - destruct (FindEntry_cases data name issuer) as [Hno | (k0 & _ & Hk0)].
    + by rewrite RemoveEntry_not_found.
    + rewrite (RemoveEntry_found _ _ _ _ Hk0). simpl.
      intros j k e1 e2 Hj Hk Hacc Hplain. simpl in Hj, Hk.
      rewrite list_lookup_delete in Hj, Hk.
      pose proof (IH _ _ _ _ Hj Hk Hacc Hplain) as Hle.
      repeat case_decide; lia.
Qed.

(** X9: in a collection built from an empty one by [AddEntry] and
    [RemoveEntry], a record without issuer comes before every other record
    of its account; so a lookup by account name alone returns that record
    whenever the account has one. *)
Theorem reachable_plain_record_wins (data : TOTPData) :
  reachable data ->
  plain_first data /\
  (forall e, e ∈ elems (Entries data) -> Issuer e = EmptyString ->
             GetEntry data (AccountName e) EmptyString = Ok e).
Proof.
  intros Hr. pose proof (reachable_plain_first data Hr) as Hpf.
  split; [done|]. intros e He Hplain.
  apply list_elem_of_lookup in He as [k Hk].
  rewrite GetEntry_list_find.
  assert (list_find (fun e' => matches (AccountName e) EmptyString e' = true)
            (elems (Entries data)) = Some (k, e)) as ->; [|done].
  apply list_find_Some. split_and!; [done|apply matches_answers; split; auto|].
  intros j y Hj Hlt Hm. apply matches_answers in Hm as [Ha _].
  pose proof (Hpf j k y e Hj Hk Ha Hplain). lia.
Qed.

Lemma reachable_plain_record_wins_witness :
  plain_first two_bobs /\
  GetEntry two_bobs "bob" EmptyString = Ok (FromOTPKey bob_plain).
Proof.
  split.
  - refine (proj1 (reachable_plain_record_wins two_bobs _)).
    do 2 apply reach_add. apply reach_empty.
  - refine (proj2 (reachable_plain_record_wins two_bobs _) (FromOTPKey bob_plain) _ _).
    + do 2 apply reach_add. apply reach_empty.
    + apply list_elem_of_here.
    + reflexivity.
Defined.

(* ===================================================================== *)
(** * More of the crypto layer *)
(* ===================================================================== *)

(** X10: whatever [Encrypt] returned without error, [Decrypt] turns back
    into the plaintext under the same key, for each of the three key sizes
    of AES; and [Encrypt] returns without error only with such a key and
    after taking exactly twelve bytes from the entropy source. *)
Theorem Encrypt_then_Decrypt `{AESGCM, !AESGCMLaws}
    (src key blob : bytes) (r r' : Reader) :
  Encrypt src key r = (Ok blob, r') ->
  Decrypt blob key = Ok src /\
  aes_key_size_ok key /\
  12 <= Z.of_nat (length r) /\
  r' = drop 12 r.
Proof.
  intros He.
  destruct (aes_key_size_ok_dec key) as [Hk|Hk];
    [|by rewrite Encrypt_key_error in He].
  destruct (Z_lt_ge_dec (Z.of_nat (length r)) 12) as [Hr|Hr].
  { destruct (Encrypt_entropy_error src key r Hk Hr) as (e & He' & _). congruence. }
  split_and!; [by eapply Decrypt_Encrypt|done|lia|].
  rewrite Encrypt_ok in He by (done || lia). by injection He as _ <-.
Qed.

Lemma Encrypt_then_Decrypt_witness :
  @Decrypt Ref.aesgcm
    (replicate 12 x07 ++ Ref.seal (replicate 16 x01) (replicate 12 x07)
                           (list_byte_of_string "otp") [])
    (replicate 16 x01)
  = Ok (list_byte_of_string "otp").
Proof.
  refine (proj1 (@Encrypt_then_Decrypt Ref.aesgcm ref_aesgcm_laws
                   (list_byte_of_string "otp") (replicate 16 x01) _
                   (replicate 12 x07) [] _)).
  reflexivity.
Defined.

(** X11: with a key that is not 16, 24 or 32 bytes long both functions
    return the key-size error of AES and nothing else happens: [Encrypt]
    leaves the entropy source as it was, and [Decrypt] reports the key even
    when the blob is too short as well. *)
Theorem bad_key_size `{AESGCM} (src key : bytes) (r : Reader) :
  Z.of_nat (length key) <> 16 ->
  Z.of_nat (length key) <> 24 ->
  Z.of_nat (length key) <> 32 ->
  Encrypt src key r = (Err (aes_KeySizeError (Z.of_nat (length key))), r) /\
  Decrypt src key = Err (aes_KeySizeError (Z.of_nat (length key))).
Proof.
  intros H16 H24 H32.
  assert (Hk : ~ aes_key_size_ok key) by (unfold aes_key_size_ok; lia).
  split; [by apply Encrypt_key_error|by apply Decrypt_key_error].
Qed.

Lemma bad_key_size_witness :
  @Decrypt Ref.aesgcm [] (replicate 31 x00) = Err (aes_KeySizeError 31).
Proof.
  refine (proj2 (@bad_key_size Ref.aesgcm [] (replicate 31 x00) [] _ _ _));
    vm_compute; discriminate.
Defined.

(** X12: [Decrypt] never returns a plaintext for a blob of fewer than 28
    bytes, the twelve of the nonce and the sixteen of the tag: under twelve
    bytes the error is its own, from twelve to twenty-seven it is the
    authentication error of GCM. *)
Theorem Decrypt_needs_nonce_and_tag `{AESGCM, !AESGCMLaws} (blob key : bytes) :
  aes_key_size_ok key ->
  Z.of_nat (length blob) < 28 ->
  Decrypt blob key =
  Err (if Z.of_nat (length blob) <? 12
       then errorString "ciphertext too short"
       else cipher_errOpen).
Proof.
  intros Hk Hb.
  destruct (Z.ltb_spec (Z.of_nat (length blob)) 12) as [Hs|Hs].
  - by apply Decrypt_short.
  - rewrite Decrypt_long by done.
    rewrite gcm_open_short; [done|].
    rewrite length_drop. unfold gcmTagSize. lia.
Qed.

Lemma Decrypt_needs_nonce_and_tag_witness :
  @Decrypt Ref.aesgcm (replicate 27 x00) key32 = Err cipher_errOpen.
Proof.
  apply (@Decrypt_needs_nonce_and_tag Ref.aesgcm ref_aesgcm_laws
           (replicate 27 x00) key32); [by do 2 right|reflexivity].
Defined.

(* ===================================================================== *)
(** * More of persistence *)
(* ===================================================================== *)

(** X13: [ReadCBORSec] returns a collection exactly when the file can be
    read, holds at least a nonce, opens under the derived key and decodes;
    when it fails, the error is the one of the step that failed, passed on
    as it is: the error of reading the file, the too-short error, the
    authentication error of GCM, or the error of the decoder.  The key is
    derived without a panic and is never refused. *)
Theorem ReadCBORSec_outcomes `{PBKDF2, AESGCM, CBOR, OS} `{!PBKDF2Laws}
    (filename password : string) (salt : bytes) (fs : FS) :
  exists key,
    DeriveKey (list_byte_of_string password) salt 32 = Ok key /\
    (forall data,
       ReadCBORSec filename password salt fs = Ok data <->
       exists encryptedData plaintext,
         os_ReadFile fs filename = Ok encryptedData /\
         12 <= Z.of_nat (length encryptedData) /\
         gcm_open key (take 12 encryptedData) (drop 12 encryptedData) []
         = Some plaintext /\
         cbor_Decode plaintext = Ok data) /\
    (forall e,
       ReadCBORSec filename password salt fs = Err e ->
       os_ReadFile fs filename = Err e \/
       exists encryptedData,
         os_ReadFile fs filename = Ok encryptedData /\
         ((Z.of_nat (length encryptedData) < 12 /\
           e = errorString "ciphertext too short") \/
          (12 <= Z.of_nat (length encryptedData) /\
           gcm_open key (take 12 encryptedData) (drop 12 encryptedData) [] = None /\
           e = cipher_errOpen) \/
          (exists plaintext,
             Decrypt encryptedData key = Ok plaintext /\
             cbor_Decode plaintext = Err e))).
Proof.
  destruct (DeriveKey_32_ok (list_byte_of_string password) salt) as (key & Hkey & _ & Hk).
  exists key. split; [done|].
  unfold ReadCBORSec. rewrite Hkey.
  destruct (os_ReadFile fs filename) as [enc|e0]; cbn [bind_result].
  - destruct (Z_lt_ge_dec (Z.of_nat (length enc)) 12) as [Hs|Hs].
    + rewrite Decrypt_short by done. cbn [bind_result]. split.
      * intros data. split; [done|]. intros (enc' & p & [= <-] & ? & _). lia.
      * intros e [= <-]. right. exists enc. split; [done|]. by left.
    + rewrite Decrypt_long by (done || lia).
      destruct (gcm_open key _ _ _) as [p|] eqn:Ho; cbn [bind_result].
      * destruct (cbor_Decode p) as [d|e1] eqn:Hd; cbn [bind_result]; split.
        -- intros data. split.
           ++ intros [= <-]. exists enc, p. split_and!; [done|lia|done|done].
           ++ intros (enc' & p' & [= <-] & _ & Ho' & Hd'). congruence.
        -- done.
        -- intros data. split; [done|].
           intros (enc' & p' & [= <-] & _ & Ho' & Hd'). congruence.
        -- intros e [= <-]. right. exists enc. split; [done|].
           right; right. exists p. split; [|done].
           rewrite Decrypt_long by (done || lia). by rewrite Ho.
      * split.
        -- intros data. split; [done|].
           intros (enc' & p' & [= <-] & _ & Ho' & _). congruence.
        -- intros e [= <-]. right. exists enc. split; [done|].
           right; left. split_and!; [lia|done|done].
  - split.
    + intros data. split; [done|]. by intros (enc' & p & ? & _).
    + intros e [= <-]. by left.
Qed.

Lemma ReadCBORSec_outcomes_witness :
  exists key encryptedData plaintext,
    @DeriveKey Ref.pbkdf2 (list_byte_of_string "correct horse") [] 32 = Ok key /\
    Ref.ReadFile
      (files (@WriteCBORSec Ref.pbkdf2 Ref.aesgcm Ref.cbor Ref.os
                "entries.db" two_alices "correct horse" [] sample_world).1)
      "entries.db" = Ok encryptedData /\
    12 <= Z.of_nat (length encryptedData) /\
    Ref.open key (take 12 encryptedData) (drop 12 encryptedData) [] = Some plaintext /\
    Ref.Decode plaintext = Ok two_alices.
Proof.
  destruct (@ReadCBORSec_outcomes Ref.pbkdf2 Ref.aesgcm Ref.cbor Ref.os
              ref_pbkdf2_laws "entries.db" "correct horse" []
              (files (@WriteCBORSec Ref.pbkdf2 Ref.aesgcm Ref.cbor Ref.os
                        "entries.db" two_alices "correct horse" []
                        sample_world).1))
    as (key & Hkey & Hdata & _).
  destruct (proj1 (Hdata two_alices)) as (enc & p & Hread & Hlen & Hopen & Hdec).
  - vm_compute. reflexivity.
  - exists key, enc, p. split_and!; [exact Hkey|exact Hread|exact Hlen|exact Hopen|exact Hdec].
Defined.

(** X14: [WriteCBORSec] fails only in one of three steps and passes the
    error on as it is: the encoder, with nothing touched; the entropy
    source, which is then drained while the files stay as they were; or
    the write to the file, after twelve bytes of entropy were used.  The
    key is derived without a panic and is never refused. *)
Theorem WriteCBORSec_failures `{PBKDF2, AESGCM, CBOR, OS} `{!PBKDF2Laws}
    (filename : string) (data : TOTPData) (password : string) (salt : bytes)
    (w w' : World) (e : error) :
  WriteCBORSec filename data password salt w = (w', Some e) ->
  exists key,
    DeriveKey (list_byte_of_string password) salt 32 = Ok key /\
    ((cbor_Encode data = Err e /\ w' = w) \/
     (exists buf,
        cbor_Encode data = Ok buf /\
        Z.of_nat (length (rand_Reader w)) < 12 /\
        (e = io_EOF \/ e = io_ErrUnexpectedEOF) /\
        files w' = files w /\ rand_Reader w' = []) \/
     (exists buf,
        cbor_Encode data = Ok buf /\
        12 <= Z.of_nat (length (rand_Reader w)) /\
        os_WriteFile (files w) filename
          (take 12 (rand_Reader w)
           ++ gcm_seal key (take 12 (rand_Reader w)) buf [])
          420
        = (files w', Some e) /\
        rand_Reader w' = drop 12 (rand_Reader w))).
Proof.
  destruct (DeriveKey_32_ok (list_byte_of_string password) salt) as (key & Hkey & _ & Hk).
  unfold WriteCBORSec. rewrite Hkey.
  intros Hw. exists key. split; [done|]. revert Hw.
  destruct (cbor_Encode data) as [buf|e0]; [|intros [= <- <-]; by left].
  intros Hw. right.
  destruct (Z_lt_ge_dec (Z.of_nat (length (rand_Reader w))) 12) as [Hr|Hr].
  - destruct (Encrypt_entropy_error buf _ _ Hk Hr) as (e1 & He & He1).
    rewrite He in Hw. injection Hw as <- <-.
    left. exists buf. by split_and!.
  - rewrite Encrypt_ok in Hw by (done || lia).
    destruct (os_WriteFile _ _ _ _) as [fs' err] eqn:Hfile.
    injection Hw as <- ->. right. exists buf. split_and!; [done|lia|done|done].
Qed.

Lemma WriteCBORSec_failures_witness :
  exists buf,
    Ref.Encode two_alices = Ok buf /\
    (io_EOF = io_EOF \/ io_EOF = io_ErrUnexpectedEOF) /\
    (∅ : gmap string bytes) = ∅.
Proof.
  destruct (@WriteCBORSec_failures Ref.pbkdf2 Ref.aesgcm Ref.cbor Ref.os
              ref_pbkdf2_laws "entries.db" two_alices "correct horse" []
              (@Build_World Ref.os (∅ : gmap string bytes) [])
              (@Build_World Ref.os (∅ : gmap string bytes) [])
              io_EOF)
    as (key & _ & [[Henc _]|[(buf & Henc & _ & He & Hfs & _)|(buf & _ & Hr & _)]]).
  - vm_compute. reflexivity.
  - vm_compute in Henc. discriminate Henc.
  - exists buf. split_and!; [exact Henc|exact He|exact Hfs].
  - vm_compute in Hr. exfalso. by apply Hr.
Defined.

(* ===================================================================== *)
(** * The table of the records *)
(* ===================================================================== *)

(** The row [PrintTable] appends for a record. *)
Lemma foldl_Append (row : TOTPEntry -> list string) (l : list TOTPEntry) (t : Table) :
  foldl (fun table ent => Append table (row ent)) t l
  = {| table_header := table_header t; table_rows := table_rows t ++ map row l |}.
Proof.
  revert t. induction l as [|ent l IH]; intros t; simpl.
  - rewrite app_nil_r. by destruct t.
  - rewrite IH. simpl. by rewrite <- app_assoc.
Qed.

(** The rows of the table are the six displayed fields of the records, in
    the order of the collection. *)
Lemma PrintTable_table_rows (data : TOTPData) :
  PrintTable_table data =
  {| table_header := ["Issuer"; "Account Name"; "Type"; "Period"; "Digits"; "Algorithm"];
     table_rows :=
       map (fun ent => [Issuer ent; AccountName ent; Type_ ent;
                        Sprintf_d (Period ent); Sprintf_d (Digits ent);
                        Algorithm ent])
           (elems (Entries data)) |}.
Proof.
  unfold PrintTable_table. cbv zeta.
  by rewrite (foldl_Append
                (fun ent => [Issuer ent; AccountName ent; Type_ ent;
                             Sprintf_d (Period ent); Sprintf_d (Digits ent);
                             Algorithm ent])).
Qed.

(** X15: the table shows no secret: two collections whose records agree,
    one by one, on issuer, account name, type, period, digits and
    algorithm are printed alike, whatever their secrets and URLs (and
    whether an empty collection is a nil slice or not). *)
Theorem PrintTable_hides_secrets `{TableWriter} (data1 data2 : TOTPData)
    (stdout : list string) :
  Forall2 (fun e1 e2 =>
             Issuer e1 = Issuer e2 /\ AccountName e1 = AccountName e2 /\
             Type_ e1 = Type_ e2 /\ Period e1 = Period e2 /\
             Digits e1 = Digits e2 /\ Algorithm e1 = Algorithm e2)
          (elems (Entries data1)) (elems (Entries data2)) ->
  PrintTable data1 stdout = PrintTable data2 stdout.
Proof.
  intros Hagree. unfold PrintTable. rewrite !PrintTable_table_rows.
  assert (map (fun ent => [Issuer ent; AccountName ent; Type_ ent;
                           Sprintf_d (Period ent); Sprintf_d (Digits ent);
                           Algorithm ent]) (elems (Entries data1))
          = map (fun ent => [Issuer ent; AccountName ent; Type_ ent;
                             Sprintf_d (Period ent); Sprintf_d (Digits ent);
                             Algorithm ent]) (elems (Entries data2))) as ->; [|done].
  induction Hagree as [|e1 e2 l1 l2 (Hi & Ha & Ht & Hp & Hd & Hg) _ IH]; [done|].
  simpl. by rewrite Hi, Ha, Ht, Hp, Hd, Hg, IH.
Qed.

Lemma PrintTable_hides_secrets_witness :
  @PrintTable plain_tablewriter
    {| Entries := Some [FromOTPKey alice_GitHub; alice_GitLab_rekeyed] |} []
  = @PrintTable plain_tablewriter two_alices [].
Proof.
  apply (@PrintTable_hides_secrets plain_tablewriter).
  repeat constructor.
Defined.

(* ===================================================================== *)
(** * The command line: salt and database path *)
(* ===================================================================== *)

Lemma list_byte_of_string_nil (s : string) :
  list_byte_of_string s = [] -> s = EmptyString.
Proof. by destruct s. Qed.

(** X16: the salt handed to the key derivation is never empty: it is the
    bytes of the salt flag when that is not empty, else of viper's value
    for the salt when that is not empty, else of the built-in default. *)
Theorem GetSalt_never_empty `{Host} (cmd : Command) (v : Viper) :
  GetSalt cmd v <> [] /\
  (Flags_GetString cmd FLAG_SALT <> EmptyString ->
   GetSalt cmd v = list_byte_of_string (Flags_GetString cmd FLAG_SALT)) /\
  (Flags_GetString cmd FLAG_SALT = EmptyString ->
   viper_GetString v FLAG_SALT <> EmptyString ->
   GetSalt cmd v = list_byte_of_string (viper_GetString v FLAG_SALT)) /\
  (Flags_GetString cmd FLAG_SALT = EmptyString ->
   viper_GetString v FLAG_SALT = EmptyString ->
   GetSalt cmd v
   = list_byte_of_string "/* Copyright (c) 2024, Books Worm Limited. */").
Proof.
  unfold GetSalt. cbv zeta.
  destruct (String.eqb_spec (Flags_GetString cmd FLAG_SALT) EmptyString) as [Hf|Hf].
  - destruct (String.eqb_spec (viper_GetString v FLAG_SALT) EmptyString) as [Hv|Hv].
    + split_and!; [done|done|done|done].
    + split_and!; [|done|done|done].
      intros Hnil. by apply list_byte_of_string_nil in Hnil.
  - destruct (String.eqb_spec (Flags_GetString cmd FLAG_SALT) EmptyString) as [|_];
      [done|].
    split_and!; [|done|done|done].
    intros Hnil. by apply list_byte_of_string_nil in Hnil.
Qed.

(** The path [getDBFilePath] works on before it looks at its first two
    bytes. *)
Lemma getDBFilePath_short `{Host} (cmd : Command) (p : Process) (dbPath : string) :
  (if Flag_Changed cmd FLAG_DB then Flags_GetString cmd FLAG_DB
   else
     let dbPath :=
       viper_GetString
         (viper_BindEnv (viper_SetEnvPrefix (viper_AutomaticEnv (proc_viper p)) "TOTP")
            "DB_PATH") "DB_PATH" in
     if String.eqb dbPath EmptyString then "~/.config/totp-cli/entries.db" else dbPath)
  = dbPath ->
  (String.length dbPath < 2)%nat ->
  getDBFilePath cmd p =
  (Panicked ("runtime error: slice bounds out of range [:2] with length "
             ++ pretty (String.length dbPath)),
   with_viper (viper_BindEnv (viper_SetEnvPrefix (viper_AutomaticEnv (proc_viper p))
                                "TOTP") "DB_PATH") p).
Proof.
  intros Hpath Hlen. unfold getDBFilePath. cbv zeta in *. rewrite Hpath.
  by rewrite (proj2 (Nat.ltb_lt _ _) Hlen).
Qed.

(** X17: a database path of fewer than two bytes makes [getDBFilePath]
    panic on the slice [dbPath[:2]]: a [db] flag given with such a value,
    or, without the flag, a one-byte value from viper (an empty one gives
    the default path).  No file is touched and nothing is printed. *)
Theorem getDBFilePath_short_path_panics `{Host} (cmd : Command) (p : Process) :
  let v := viper_BindEnv (viper_SetEnvPrefix (viper_AutomaticEnv (proc_viper p)) "TOTP")
             "DB_PATH" in
  (Flag_Changed cmd FLAG_DB = true /\
   (String.length (Flags_GetString cmd FLAG_DB) < 2)%nat) \/
  (Flag_Changed cmd FLAG_DB = false /\
   String.length (viper_GetString v "DB_PATH") = 1%nat) ->
  exists msg p',
    getDBFilePath cmd p = (Panicked msg, p') /\
    proc_world p' = proc_world p /\
    proc_stdout p' = proc_stdout p.
Proof.
  intros v [[Hc Hlen]|[Hc Hlen]].
  - rewrite (getDBFilePath_short cmd p (Flags_GetString cmd FLAG_DB));
      [by eexists _, _|by rewrite Hc|done].
  - rewrite (getDBFilePath_short cmd p (viper_GetString v "DB_PATH"));
      [by eexists _, _| |lia].
    rewrite Hc. cbv zeta. fold v.
    destruct (String.eqb_spec (viper_GetString v "DB_PATH") EmptyString) as [He|]; [|done].
    rewrite He in Hlen. discriminate.
Qed.

Lemma getDBFilePath_short_path_panics_witness :
  exists msg p',
    @getDBFilePath Ref.os ref_host (command_line "x" "alice" "GitHub" EmptyString)
      sample_process = (Panicked msg, p') /\
    proc_world p' = proc_world sample_process /\
    proc_stdout p' = proc_stdout sample_process.
Proof.
  apply (@getDBFilePath_short_path_panics Ref.os ref_host).
  left. split; [reflexivity|vm_compute; lia].
Defined.

(** X18: a [db] flag that was given is used as it stands, whatever viper
    holds for the path: when it has at least two bytes and does not begin
    with a tilde and a slash, [getDBFilePath] makes its directory and
    returns the very string of the flag, having printed the path unless
    quiet. *)
Theorem getDBFilePath_flag_verbatim `{Host} (cmd : Command) (p : Process)
    (fs : FS) :
  Flag_Changed cmd FLAG_DB = true ->
  (2 <= String.length (Flags_GetString cmd FLAG_DB))%nat ->
  substring 0 2 (Flags_GetString cmd FLAG_DB) <> "~/" ->
  os_MkdirAll (files (proc_world p)) (filepath_Dir (Flags_GetString cmd FLAG_DB)) 493
  = (fs, None) ->
  exists p',
    getDBFilePath cmd p = (Returned (Flags_GetString cmd FLAG_DB), p') /\
    files (proc_world p') = fs /\
    rand_Reader (proc_world p') = rand_Reader (proc_world p) /\
    proc_stdout p' =
    proc_stdout p ++
    (if Flags_GetBool cmd FLAG_QUIET then []
     else [("Using database file: " ++ Flags_GetString cmd FLAG_DB ++ newline)%string]).
Proof.
  intros Hc Hlen Htilde Hmk. unfold getDBFilePath. cbv zeta. rewrite Hc.
  rewrite (proj2 (Nat.ltb_ge _ _) Hlen).
  rewrite (proj2 (String.eqb_neq _ _) Htilde).
  cbn [proc_world with_viper]. rewrite Hmk.
  eexists. split; [done|].
  unfold conditionalPrintf, getQuiet.
  destruct (Flags_GetBool cmd FLAG_QUIET); simpl; [by rewrite app_nil_r|done].
Qed.

Lemma getDBFilePath_flag_verbatim_witness :
  exists p',
    @getDBFilePath Ref.os ref_host
      (command_line "/tmp/entries.db" "alice" "GitHub" EmptyString) sample_process
    = (Returned "/tmp/entries.db", p').
Proof.
  destruct (@getDBFilePath_flag_verbatim Ref.os ref_host
              (command_line "/tmp/entries.db" "alice" "GitHub" EmptyString)
              sample_process (∅ : gmap string bytes))
    as (p' & Hp & _); [reflexivity|vm_compute; lia|discriminate|reflexivity|].
  exists p'. exact Hp.
Defined.

(* ===================================================================== *)
(** * The command line: the commands *)
(* ===================================================================== *)

Lemma getPwdSalt_typed `{Host} (cmd : Command) (p : Process) (typed : bytes) :
  term_ReadPassword = Ok typed ->
  getPwdSalt cmd p
  = ((string_of_list_byte typed, GetSalt cmd (proc_viper p), None), prompted p).
Proof. intros Ht. unfold getPwdSalt, ReadPassword. by rewrite Ht. Qed.

Lemma getPwdSalt_failed `{Host} (cmd : Command) (p : Process) (err : error) :
  term_ReadPassword = Err err ->
  getPwdSalt cmd p
  = ((EmptyString, [], Some (wrapError "error reading password: " err)),
     print PWD_PROMT p).
Proof. intros Ht. unfold getPwdSalt, ReadPassword. by rewrite Ht. Qed.

(** [getPwdSalt] leaves files, entropy and clipboard alone. *)
Lemma getPwdSalt_world `{Host} (cmd : Command) (p p' : Process)
    (r : string * bytes * option cli_error) :
  getPwdSalt cmd p = (r, p') ->
  proc_world p' = proc_world p /\ proc_clipboard p' = proc_clipboard p /\
  proc_viper p' = proc_viper p.
Proof.
  unfold getPwdSalt, ReadPassword.
  destruct term_ReadPassword; intros [= <- <-]; done.
Qed.

(** What [WriteCBORSec] wrote, [ReadCBORSec] reads. *)
Lemma ReadCBORSec_written `{PBKDF2, AESGCM, CBOR, OS}
    `{!PBKDF2Laws, !AESGCMLaws, !OSLaws}
    (filename : string) (data : TOTPData) (password : string) (salt : bytes)
    (w w' : World) :
  (forall buf, cbor_Encode data = Ok buf -> cbor_Decode buf = Ok data) ->
  WriteCBORSec filename data password salt w = (w', None) ->
  ReadCBORSec filename password salt (files w') = Ok data.
Proof.
  intros Hcodec Hw.
  apply ReadCBORSec_WriteCBORSec in Hw as (buf & Hbuf & ->). by apply Hcodec.
Qed.

(** X19: removing a record that is not there changes nothing: once the
    path is known, the password typed and the database read, a probe that
    no record answers makes [cmdRremove] return [ErrEntryNotFound] wrapped
    in its own message, with the files, the entropy source and the output
    as the password prompt left them. *)
Theorem cmdRremove_missing_entry `{PBKDF2, AESGCM, CBOR, Host}
    (cmd : Command) (p p1 : Process) (dbFilePath : string) (typed : bytes)
    (data : TOTPData) :
  getDBFilePath cmd p = (Returned dbFilePath, p1) ->
  term_ReadPassword = Ok typed ->
  ReadCBORSec dbFilePath (string_of_list_byte typed) (GetSalt cmd (proc_viper p1))
    (files (proc_world p1)) = Ok data ->
  (forall e, e ∈ elems (Entries data) ->
             ~ answers (Flags_GetString cmd FLAG_ACCOUNT)
                       (Flags_GetString cmd FLAG_ISSUER) e) ->
  cmdRremove_RunE cmd p
  = (Returned (Some (wrapError "error removing TOTP: " ErrEntryNotFound)), prompted p1).
Proof.
  intros Hpath Htyped Hread Hno. unfold cmdRremove_RunE. cbv zeta.
  rewrite Hpath. cbn [and_then]. rewrite (getPwdSalt_typed _ _ _ Htyped).
  cbn [prompted print proc_world proc_viper]. rewrite Hread.
  change "issuer" with FLAG_ISSUER.
  rewrite RemoveEntry_not_found by by apply FindEntry_not_found.
  done.
Qed.

Lemma cmdRremove_missing_entry_witness :
  exists p',
    @cmdRremove_RunE Ref.pbkdf2 Ref.aesgcm Ref.cbor Ref.os ref_host
      (command_line "/tmp/entries.db" "carol" EmptyString EmptyString) stored_process
    = (Returned (Some (wrapError "error removing TOTP: " ErrEntryNotFound)), p').
Proof.
  eexists.
  eapply (@cmdRremove_missing_entry Ref.pbkdf2 Ref.aesgcm Ref.cbor Ref.os ref_host
            (command_line "/tmp/entries.db" "carol" EmptyString EmptyString)
            stored_process _ "/tmp/entries.db" (list_byte_of_string "correct horse")
            two_alices).
  - vm_compute. reflexivity.
  - reflexivity.
  - vm_compute. reflexivity.
  - intros e He [Ha _]. vm_compute in He, Ha.
    apply list_elem_of_In in He. destruct He as [<-|[<-|[]]]; discriminate Ha.
Defined.

Lemma conditionalPrintf_world `{Host} (quiet : bool) (text : string) (p : Process) :
  proc_world (conditionalPrintf quiet text p) = proc_world p /\
  proc_clipboard (conditionalPrintf quiet text p) = proc_clipboard p /\
  proc_viper (conditionalPrintf quiet text p) = proc_viper p.
Proof. unfold conditionalPrintf. by destruct quiet. Qed.

(** X20: a database that [cmdCreateDb] reports as created is a new one and
    can be read: the command returns without error only if [os.Stat]
    found nothing at the path and the password was typed, and then
    [ReadCBORSec] with that path, password and salt returns the empty
    collection (as far as the codec decodes what it encoded for it). *)
Theorem cmdCreateDb_success `{PBKDF2, AESGCM, CBOR, Host}
    `{!PBKDF2Laws, !AESGCMLaws, !OSLaws} (cmd : Command) (p p' : Process) :
  cmdCreateDb_RunE cmd p = (Returned None, p') ->
  exists dbPath p1 typed,
    getDBFilePath cmd p = (Returned dbPath, p1) /\
    os_Stat (files (proc_world p1)) dbPath <> None /\
    term_ReadPassword = Ok typed /\
    ((forall buf, cbor_Encode {| Entries := Some [] |} = Ok buf ->
                  cbor_Decode buf = Ok {| Entries := Some [] |}) ->
     ReadCBORSec dbPath (string_of_list_byte typed) (GetSalt cmd (proc_viper p1))
       (files (proc_world p')) = Ok {| Entries := Some [] |}).
Proof.
  unfold cmdCreateDb_RunE. cbv zeta.
  destruct (getDBFilePath cmd p) as [[dbPath|code|msg] p1] eqn:Hpath;
    cbn [and_then]; [|discriminate..].
  destruct (os_Stat _ _) as [e|] eqn:Hstat; [|discriminate].
  destruct term_ReadPassword as [typed|e'] eqn:Htyped.
  - rewrite (getPwdSalt_typed _ _ _ Htyped).
    cbn [prompted print proc_world proc_viper].
    destruct (WriteCBORSec _ _ _ _ _) as [w [err|]] eqn:Hw; [discriminate|].
    intros [= <-]. exists dbPath, p1, typed. split_and!; [done|by rewrite Hstat|done|].
    intros Hcodec.
    rewrite (proj1 (conditionalPrintf_world _ _ _)). cbn [with_world proc_world].
    by eapply ReadCBORSec_written.
  - by rewrite (getPwdSalt_failed _ _ _ Htyped).
Qed.

Lemma cmdCreateDb_success_witness :
  exists dbPath p1 typed,
    @getDBFilePath Ref.os ref_host
      (command_line "/tmp/new.db" EmptyString EmptyString EmptyString) stored_process
    = (Returned dbPath, p1) /\
    @term_ReadPassword Ref.os ref_host = Ok typed.
Proof.
  destruct (@cmdCreateDb_success Ref.pbkdf2 Ref.aesgcm Ref.cbor Ref.os ref_host
              ref_pbkdf2_laws ref_aesgcm_laws ref_os_laws
              (command_line "/tmp/new.db" EmptyString EmptyString EmptyString)
              stored_process
              (@cmdCreateDb_RunE Ref.pbkdf2 Ref.aesgcm Ref.cbor Ref.os ref_host
                 (command_line "/tmp/new.db" EmptyString EmptyString EmptyString)
                 stored_process).2)
    as (dbPath & p1 & typed & Hp & _ & Ht & _).
  - vm_compute. reflexivity.
  - exists dbPath, p1, typed. split; [exact Hp|exact Ht].
Defined.

(** X21: a record that [cmdRremove] reports as removed is gone from the
    file: the command returns without error only if the database was read
    and [RemoveEntry] found the record, and then [ReadCBORSec] with the
    same path, password and salt returns the collection [RemoveEntry]
    left (as far as the codec decodes what it encoded for it). *)
Theorem cmdRremove_success `{PBKDF2, AESGCM, CBOR, Host}
    `{!PBKDF2Laws, !AESGCMLaws, !OSLaws} (cmd : Command) (p p' : Process) :
  cmdRremove_RunE cmd p = (Returned None, p') ->
  exists dbFilePath p1 typed data data',
    getDBFilePath cmd p = (Returned dbFilePath, p1) /\
    term_ReadPassword = Ok typed /\
    ReadCBORSec dbFilePath (string_of_list_byte typed) (GetSalt cmd (proc_viper p1))
      (files (proc_world p1)) = Ok data /\
    RemoveEntry data (Flags_GetString cmd FLAG_ACCOUNT) (Flags_GetString cmd FLAG_ISSUER)
    = (data', None) /\
    ((forall buf, cbor_Encode data' = Ok buf -> cbor_Decode buf = Ok data') ->
     ReadCBORSec dbFilePath (string_of_list_byte typed) (GetSalt cmd (proc_viper p1))
       (files (proc_world p')) = Ok data').
Proof.
  unfold cmdRremove_RunE. cbv zeta. change "issuer" with FLAG_ISSUER.
  destruct (getDBFilePath cmd p) as [[dbPath|code|msg] p1] eqn:Hpath;
    cbn [and_then]; [|discriminate..].
  destruct term_ReadPassword as [typed|e'] eqn:Htyped;
    [|by rewrite (getPwdSalt_failed _ _ _ Htyped)].
  rewrite (getPwdSalt_typed _ _ _ Htyped).
  cbn [prompted print proc_world proc_viper].
  destruct (ReadCBORSec _ _ _ _) as [data|e] eqn:Hread; [|discriminate].
  destruct (RemoveEntry data _ _) as [data' [e|]] eqn:Hrm; [discriminate|].
  destruct (WriteCBORSec _ _ _ _ _) as [w [err|]] eqn:Hw; [discriminate|].
  intros [= <-]. exists dbPath, p1, typed, data, data'.
  split_and!; [done..|].
  intros Hcodec.
  rewrite (proj1 (conditionalPrintf_world _ _ _)). cbn [with_world proc_world].
  by eapply ReadCBORSec_written.
Qed.

Lemma cmdRremove_success_witness :
  exists dbFilePath p1 typed data data',
    @getDBFilePath Ref.os ref_host
      (command_line "/tmp/entries.db" "alice" "GitHub" EmptyString) stored_process
    = (Returned dbFilePath, p1) /\
    @term_ReadPassword Ref.os ref_host = Ok typed /\
    RemoveEntry data "alice" "GitHub" = (data', None).
Proof.
  destruct (@cmdRremove_success Ref.pbkdf2 Ref.aesgcm Ref.cbor Ref.os ref_host
              ref_pbkdf2_laws ref_aesgcm_laws ref_os_laws
              (command_line "/tmp/entries.db" "alice" "GitHub" EmptyString)
              stored_process
              (@cmdRremove_RunE Ref.pbkdf2 Ref.aesgcm Ref.cbor Ref.os ref_host
                 (command_line "/tmp/entries.db" "alice" "GitHub" EmptyString)
                 stored_process).2)
    as (dbPath & p1 & typed & data & data' & Hp & Ht & _ & Hrm & _).
  - vm_compute. reflexivity.
  - exists dbPath, p1, typed, data, data'. split_and!; [exact Hp|exact Ht|exact Hrm].
Defined.



(** X23: [cmdAddUrl] stores the record before it generates the first code.
    Take the URL from where the command takes it, the flag or the
    clipboard; when the key parsed from it was appended and the collection
    written, and the code generator then fails, the command returns that
    failure, and the file already holds the encoding of the collection
    with the new record: [ReadCBORSec] hands it to the decoder, and
    returns that collection when all its strings are valid UTF-8. *)
Theorem cmdAddUrl_stores_before_code `{PBKDF2, AESGCM, CBOR, Host}
    `{!PBKDF2Laws, !AESGCMLaws, !CBORLaws, !OSLaws}
    (cmd : Command) (p p1 : Process) (url : string) (key : otp.Key)
    (dbFilePath : string) (typed : bytes) (data data' : TOTPData) (w : World)
    (err : error) :
  (if String.eqb (Flags_GetString cmd FLAG_URL) EmptyString
      && negb (Flags_GetBool cmd FLAG_CLIP)
   then clipboard_ReadAll (proc_clipboard p)
   else Ok (Flags_GetString cmd FLAG_URL)) = Ok url ->
  otp_NewKeyFromURL url = Ok key ->
  getDBFilePath cmd p = (Returned dbFilePath, p1) ->
  term_ReadPassword = Ok typed ->
  ReadCBORSec dbFilePath (string_of_list_byte typed) (GetSalt cmd (proc_viper p1))
    (files (proc_world p1)) = Ok data ->
  AddEntry data key = (data', None) ->
  WriteCBORSec dbFilePath data' (string_of_list_byte typed)
    (GetSalt cmd (proc_viper p1)) (proc_world p1) = (w, None) ->
  totp_GenerateCode (otp.Secret key) time_Now = Err err ->
  exists p' buf,
    cmdAddUrl_RunE cmd p
    = (Returned (Some (wrapError "error generating TOTP code: " err)), p') /\
    proc_world p' = w /\
    data' = {| Entries := Some (elems (Entries data) ++ [FromOTPKey key]) |} /\
    cbor_Encode data' = Ok buf /\
    ReadCBORSec dbFilePath (string_of_list_byte typed) (GetSalt cmd (proc_viper p1))
      (files (proc_world p'))
    = cbor_Decode buf /\
    (utf8_data data' = true ->
     ReadCBORSec dbFilePath (string_of_list_byte typed) (GetSalt cmd (proc_viper p1))
       (files (proc_world p'))
     = Ok data').
Proof.
  intros Hurl Hkey Hpath Htyped Hread Hadd Hw Hcode.
  unfold cmdAddUrl_RunE. cbv zeta.
  rewrite Hurl, Hkey, Hpath. cbn [and_then]. rewrite (getPwdSalt_typed _ _ _ Htyped).
  cbn [prompted print proc_world proc_viper]. rewrite Hread, Hadd, Hw, Hcode.
  destruct (ReadCBORSec_WriteCBORSec _ _ _ _ _ _ Hw) as (buf & Hbuf & Hfile).
  eexists _, buf. split; [done|].
  rewrite (proj1 (conditionalPrintf_world _ _ _)). cbn [with_world proc_world].
  split_and!; [done| |done|done|].
  - by destruct (AddEntry_success _ _ _ Hadd) as [-> _].
  - intros Hu. rewrite Hfile. by apply cbor_Decode_Encode.
Qed.

(** X24: listing and generating only read: whatever they return, the files
    and the entropy source are as [getDBFilePath] left them; [cmdList]
    leaves the clipboard alone, and so does [cmdGenerate] unless the
    clipboard flag is set. *)
Theorem read_only_commands `{PBKDF2, AESGCM, CBOR, Host, TableWriter}
    (cmd : Command) (p : Process) :
  (forall r p1 r' p',
     getDBFilePath cmd p = (r, p1) ->
     cmdList_RunE cmd p = (r', p') ->
     proc_world p' = proc_world p1 /\ proc_clipboard p' = proc_clipboard p1) /\
  (forall r p1 r' p',
     getDBFilePath cmd p = (r, p1) ->
     cmdGenerate_RunE cmd p = (r', p') ->
     proc_world p' = proc_world p1 /\
     (Flags_GetBool cmd FLAG_CLIP = false -> proc_clipboard p' = proc_clipboard p1)).
Proof.
  split; intros r p1 r' p' Hpath.
  - unfold cmdList_RunE. rewrite Hpath.
    destruct r as [dbPath|code|msg]; cbn [and_then]; [|by intros [= <- <-]..].
    destruct (getPwdSalt cmd p1) as [[[pwd salt] err] p2] eqn:Hpwd.
    apply getPwdSalt_world in Hpwd as (Hw & Hc & _).
    destruct err; [by intros [= <- <-]|].
    destruct (ReadCBORSec _ _ _ _); by intros [= <- <-].
  - unfold cmdGenerate_RunE. cbv zeta. rewrite Hpath.
    destruct r as [dbPath|code|msg]; cbn [and_then]; [|by intros [= <- <-]..].
    destruct (getPwdSalt cmd p1) as [[[pwd salt] err] p2] eqn:Hpwd.
    apply getPwdSalt_world in Hpwd as (Hw & Hc & _).
    destruct err; [by intros [= <- <-]|].
    destruct (ReadCBORSec _ _ _ _) as [data|e]; [|by intros [= <- <-]].
    destruct (GetEntry _ _ _) as [val|e]; [|by intros [= <- <-]].
    destruct (totp_GenerateCode _ _) as [code|e]; [|by intros [= <- <-]].
    unfold getQuiet.
    destruct (Flags_GetBool cmd FLAG_QUIET), (Flags_GetBool cmd FLAG_CLIP);
      cbn [conditionalPrintf negb];
      try destruct (clipboard_WriteAll _ _) as [c [e|]];
      intros [= <- <-]; cbn; by rewrite ?Hw, ?Hc.
Qed.

Lemma cmdAddUrl_stores_before_code_witness :
  exists p',
    @cmdAddUrl_RunE Ref.pbkdf2 Ref.aesgcm Ref.cbor Ref.os no_code_host
      (command_line "/tmp/entries.db" EmptyString EmptyString (otp.URL bob_plain))
      stored_process_no_code
    = (Returned (Some (wrapError "error generating TOTP code: "
                         (errorString "Decoding of secret as base32 failed."))), p') /\
    @ReadCBORSec Ref.pbkdf2 Ref.aesgcm Ref.cbor Ref.os
      "/tmp/entries.db" "correct horse" default_salt (files (proc_world p'))
    = Ok {| Entries := Some (elems (Entries two_alices) ++ [FromOTPKey bob_plain]) |}.
Proof.
  destruct (@cmdAddUrl_stores_before_code Ref.pbkdf2 Ref.aesgcm Ref.cbor Ref.os
              no_code_host ref_pbkdf2_laws ref_aesgcm_laws ref_cbor_laws ref_os_laws
              (command_line "/tmp/entries.db" EmptyString EmptyString (otp.URL bob_plain))
              stored_process_no_code
              (@getDBFilePath Ref.os no_code_host
                 (command_line "/tmp/entries.db" EmptyString EmptyString
                    (otp.URL bob_plain)) stored_process_no_code).2
              (otp.URL bob_plain) bob_plain "/tmp/entries.db"
              (list_byte_of_string "correct horse") two_alices
              (AddEntry two_alices bob_plain).1
              (@WriteCBORSec Ref.pbkdf2 Ref.aesgcm Ref.cbor Ref.os "/tmp/entries.db"
                 (AddEntry two_alices bob_plain).1 "correct horse" default_salt
                 stored_world).1
              (errorString "Decoding of secret as base32 failed."))
    as (p' & buf & Hrun & _ & _ & _ & _ & Hread).
  - reflexivity.
  - reflexivity.
  - vm_compute. reflexivity.
  - reflexivity.
  - vm_compute. reflexivity.
  - vm_compute. reflexivity.
  - vm_compute. reflexivity.
  - reflexivity.
  - exists p'. split; [exact Hrun|]. apply Hread. vm_compute. reflexivity.
Defined.

(* ===================================================================== *)
(** * The command line: the clipboard flag of [cmdAddUrl] *)
(* ===================================================================== *)

Lemma getDBFilePath_clipboard `{Host} (cmd : Command) (p : Process) (c : Clipboard) :
  getDBFilePath cmd (with_clipboard c p)
  = ((getDBFilePath cmd p).1, with_clipboard c (getDBFilePath cmd p).2).
Proof.
  unfold getDBFilePath. cbv zeta. cbn [with_clipboard proc_viper].
  destruct (_ <? _)%nat; [done|].
  destruct (if String.eqb _ "~/" then _ else _) as [dbPath|err]; [|done].
  cbn [with_viper with_clipboard proc_world].
  destruct (os_MkdirAll _ _ _) as [fs [err|]]; [done|].
  unfold conditionalPrintf. by destruct (negb _).
Qed.

Lemma getPwdSalt_clipboard `{Host} (cmd : Command) (p : Process) (c : Clipboard) :
  getPwdSalt cmd (with_clipboard c p)
  = ((getPwdSalt cmd p).1, with_clipboard c (getPwdSalt cmd p).2).
Proof. unfold getPwdSalt, ReadPassword. by destruct term_ReadPassword. Qed.

(** X25: with the clipboard flag set, [cmdAddUrl] does not look at the
    clipboard: whatever the clipboard holds, the command parses the value
    of the URL flag, the empty string if none was given, and ends in the
    same way with the same files and the same output. *)
Theorem cmdAddUrl_clipboard_flag_skips_clipboard `{PBKDF2, AESGCM, CBOR, Host}
    (cmd : Command) (p : Process) (c : Clipboard) :
  Flags_GetBool cmd FLAG_CLIP = true ->
  cmdAddUrl_RunE cmd (with_clipboard c p)
  = ((cmdAddUrl_RunE cmd p).1, with_clipboard c (cmdAddUrl_RunE cmd p).2).
Proof.
  intros Hclip. unfold cmdAddUrl_RunE. cbv zeta. rewrite Hclip.
  rewrite andb_false_r.
  destruct (otp_NewKeyFromURL _) as [key|err]; [|done].
  rewrite getDBFilePath_clipboard.
  destruct (getDBFilePath cmd p) as [[dbPath|code|msg] p1]; cbn [and_then fst snd];
    [|done..].
  rewrite getPwdSalt_clipboard.
  destruct (getPwdSalt cmd p1) as [[[pwd salt] err] p2]; cbn [fst snd].
  destruct err; [done|]. cbn [with_clipboard proc_world].
  destruct (ReadCBORSec _ _ _ _) as [data|err]; [|done].
  destruct (AddEntry data key) as [data' [err|]]; [done|].
  destruct (WriteCBORSec _ _ _ _ _) as [w [err|]]; [done|].
  unfold conditionalPrintf.
  destruct (totp_GenerateCode _ _) as [code|err], (negb _); done.
Qed.

Lemma cmdAddUrl_clipboard_flag_skips_clipboard_witness :
  @cmdAddUrl_RunE Ref.pbkdf2 Ref.aesgcm Ref.cbor Ref.os ref_host
    {| Flags_GetString := fun _ => EmptyString;
       Flags_GetBool := fun name => String.eqb name FLAG_CLIP;
       Flag_Changed := fun _ => false |}
    (@with_clipboard Ref.os ref_host (otp.URL bob_plain) stored_process)
  = (Returned (Some (wrapError "error parsing TOPT URL: " (errorString "missing scheme"))),
     @with_clipboard Ref.os ref_host (otp.URL bob_plain) stored_process).
Proof.
  rewrite (@cmdAddUrl_clipboard_flag_skips_clipboard
             Ref.pbkdf2 Ref.aesgcm Ref.cbor Ref.os ref_host); reflexivity.
Defined.
